(** * A shallow embedding of the Bi-LSTM repository

    Sources embedded here:
      - [bilstm/src/model.py]  ([FullBiLSTM])
      - [losses.py]            ([LSTMLosses], [ContrastiveLoss], [SBContrastiveLoss])
      - [use_model.py]         ([create_random_packed_seq], [Network])

    Conventions.
      - A Python exception is a value [Raise cls msg]; code that can raise
        lives in the error monad [result].  The repository has no [raise]
        and no [try], so every [Err] below is produced by a primitive of the
        language runtime or of the tensor library and is passed on by [bind].
      - A tensor is its shape together with its index function.  Entries
        outside the shape are never read by the operations below.
      - Tensor entries range over a type [A] carrying the arithmetic of the
        tensor library ([Scalar]).  Nothing is assumed about that arithmetic
        unless a statement asks for [ScalarLaws]; the real numbers are one
        instance.
      - Library functions whose code is not part of the repository
        ([pack_padded_sequence], [pad_packed_sequence],
        [F.pairwise_distance], the inception backbone, [nn.LSTM]) are fields
        of interface classes.
      - Device placement ([.cuda()]) does not change any value and is not
        modelled. *)

From Stdlib Require Import String.
From Stdlib Require Import List Arith ZArith Lia Bool.
From Stdlib Require Import Permutation Sorted.
From Stdlib Require Import Reals Lra.
Import ListNotations.

Set Implicit Arguments.

(* ================================================================== *)
(** * The Python runtime                                               *)
(* ================================================================== *)

Module Py.

Inductive exn_class : Type :=
| ValueError | IndexError | RuntimeError | AssertionError | TypeError.

Record exn : Type := Raise { exn_cls : exn_class; exn_msg : string }.

Inductive result (X : Type) : Type :=
| Ok (x : X)
| Err (e : exn).
Arguments Ok {X} x.
Arguments Err {X} e.

Definition ret {X} (x : X) : result X := Ok x.

Definition bind {X Y} (m : result X) (k : X -> result Y) : result Y :=
  match m with
  | Ok x => k x
  | Err e => Err e
  end.

(** [for x in xs: acc = body(x, acc)], stopping at the first exception. *)
Fixpoint for_each {X S} (xs : list X) (acc : S)
         (body : X -> S -> result S) : result S :=
  match xs with
  | [] => Ok acc
  | x :: xs' => bind (body x acc) (fun acc' => for_each xs' acc' body)
  end.

(** A list comprehension [[f(x) for x in xs]]. *)
Fixpoint comprehension {X Y} (f : X -> result Y) (xs : list X)
  : result (list Y) :=
  match xs with
  | [] => Ok []
  | x :: xs' =>
      bind (f x) (fun y =>
      bind (comprehension f xs') (fun ys => Ok (y :: ys)))
  end.

Definition range (n : nat) : list nat := seq 0 n.

Definition enumerate {X} (xs : list X) : list (nat * X) :=
  combine (seq 0 (length xs)) xs.

Definition max_empty : exn :=
  Raise ValueError "max() arg is an empty sequence".

Definition list_index : exn :=
  Raise IndexError "list index out of range".

(** The builtin [max] on a list of lengths. *)
Definition max (xs : list nat) : result nat :=
  match xs with
  | [] => Err max_empty
  | x :: xs' => Ok (fold_left Nat.max xs' x)
  end.

(** [xs[i]] for a list and a non-negative index. *)
Definition getitem {X} (xs : list X) (i : nat) : result X :=
  match nth_error xs i with
  | Some x => Ok x
  | None => Err list_index
  end.

(** [sorted(xs, key=key, reverse=True)].  The sort of the runtime is
    stable, also with [reverse=True]: among equal keys the original
    order is kept.  [insert_desc] puts [x] in front of the first element
    whose key is not greater than its own. *)
Fixpoint insert_desc {X} (key : X -> nat) (x : X) (l : list X) : list X :=
  match l with
  | [] => [x]
  | y :: l' =>
      if key x <? key y then y :: insert_desc key x l'
      else x :: l
  end.

Definition sorted_desc {X} (key : X -> nat) (xs : list X) : list X :=
  fold_right (insert_desc key) [] xs.

End Py.

Import Py.

Declare Scope py_scope.
Delimit Scope py_scope with py.
Notation "x <- m ;; k" := (bind m (fun x => k))
  (at level 61, m at next level, right associativity) : py_scope.
Notation "' p <- m ;; k" := (bind m (fun x => match x with p => k end))
  (at level 61, p pattern, m at next level, right associativity) : py_scope.
Open Scope py_scope.

(* ================================================================== *)
(** * The tensor library                                               *)
(* ================================================================== *)

(** The arithmetic on tensor entries. *)
Class Scalar (A : Type) : Type := {
  zero : A;
  one : A;
  add : A -> A -> A;
  sub : A -> A -> A;
  mul : A -> A -> A;
  div : A -> A -> A;
  neg : A -> A;
  exp : A -> A;
  log : A -> A;
  (** [torch.pow(x, n)] for an integer exponent *)
  pow : A -> nat -> A;
  (** [torch.clamp(x, min=lo)] *)
  clamp_min : A -> A -> A;
  (** a Python [int] used where a tensor entry is expected *)
  of_nat : nat -> A
}.

Module Torch.

Record tensor1 (A : Type) : Type :=
  T1 { size1 : nat; at1 : nat -> A }.

Record tensor2 (A : Type) : Type :=
  T2 { rows2 : nat; cols2 : nat; at2 : nat -> nat -> A }.

Record tensor3 (A : Type) : Type :=
  T3 { dim0 : nat; dim1 : nat; dim2 : nat; at3 : nat -> nat -> nat -> A }.

Definition index_error : exn :=
  Raise IndexError "index out of range".

Definition size_mismatch : exn :=
  Raise RuntimeError "size mismatch".

Definition empty_cat : exn :=
  Raise RuntimeError "expected a non-empty list of Tensors".

Section Ops.
Context {A : Type} `{Scalar A}.

(** ** Creation *)

Definition zeros1 (n : nat) : tensor1 A := T1 n (fun _ => zero).
Definition zeros2 (r c : nat) : tensor2 A := T2 r c (fun _ _ => zero).
Definition zeros3 (a b c : nat) : tensor3 A :=
  T3 a b c (fun _ _ _ => zero).

(** ** Indexing *)

(** [t[idx]] on a matrix with a Python integer: a negative index
    counts from the end. *)
Definition getitem2 (t : tensor2 A) (idx : Z) : result (tensor1 A) :=
  let n := Z.of_nat (rows2 t) in
  if ((0 <=? idx) && (idx <? n))%Z then
    Ok (T1 (cols2 t) (at2 t (Z.to_nat idx)))
  else if ((- n <=? idx) && (idx <? 0))%Z then
    Ok (T1 (cols2 t) (at2 t (Z.to_nat (idx + n))))
  else Err index_error.

(** [t[j]] on a matrix with an index of a [range]. *)
Definition row2 (t : tensor2 A) (j : nat) : result (tensor1 A) :=
  if j <? rows2 t then Ok (T1 (cols2 t) (at2 t j))
  else Err index_error.

(** [t[k]] on a rank-3 tensor. *)
Definition getitem3 (t : tensor3 A) (k : nat) : result (tensor2 A) :=
  if k <? dim0 t then Ok (T2 (dim1 t) (dim2 t) (at3 t k))
  else Err index_error.

(** [t[i, :stop, lo:hi]]: the integer index is checked, the slices are
    clipped to the shape. *)
Definition select_slice3 (t : tensor3 A) (i stop lo hi : nat)
  : result (tensor2 A) :=
  if i <? dim0 t then
    let lo' := Nat.min lo (dim2 t) in
    let hi' := Nat.min hi (dim2 t) in
    Ok (T2 (Nat.min stop (dim1 t)) (hi' - lo')
           (fun r c => at3 t i r (lo' + c)))
  else Err index_error.

(** [t[i, j] = v] *)
Definition setitem3 (t : tensor3 A) (i j : nat) (v : tensor1 A)
  : result (tensor3 A) :=
  if (i <? dim0 t) && (j <? dim1 t) then
    if size1 v =? dim2 t then
      Ok (T3 (dim0 t) (dim1 t) (dim2 t)
             (fun i' j' k =>
                if (i' =? i) && (j' =? j) then at1 v k
                else at3 t i' j' k))
    else Err size_mismatch
  else Err index_error.

(** [t[perm, :]]: the rows of [t] listed by [perm]. *)
Definition index_select3 (t : tensor3 A) (perm : list nat)
  : result (tensor3 A) :=
  if forallb (fun p => p <? dim0 t) perm then
    Ok (T3 (length perm) (dim1 t) (dim2 t)
           (fun i => at3 t (nth i perm 0)))
  else Err index_error.

(** ** Shape changes *)

(** [t.permute(1, 0, 2)] *)
Definition permute102 (t : tensor3 A) : tensor3 A :=
  T3 (dim1 t) (dim0 t) (dim2 t) (fun i j k => at3 t j i k).

(** [t.permute(0, 2, 1)] *)
Definition permute021 (t : tensor3 A) : tensor3 A :=
  T3 (dim0 t) (dim2 t) (dim1 t) (fun i j k => at3 t i k j).

(** [t.permute(1, 0)] *)
Definition permute10 (t : tensor2 A) : tensor2 A :=
  T2 (cols2 t) (rows2 t) (fun r c => at2 t c r).

(** [v.unsqueeze(0)] *)
Definition unsqueeze0 (v : tensor1 A) : tensor2 A :=
  T2 1 (size1 v) (fun _ c => at1 v c).

(** [torch.cat((a, b))] along the first axis. *)
Definition cat2 (a b : tensor2 A) : result (tensor2 A) :=
  if cols2 a =? cols2 b then
    Ok (T2 (rows2 a + rows2 b) (cols2 a)
           (fun r c => if r <? rows2 a then at2 a r c
                       else at2 b (r - rows2 a) c))
  else Err size_mismatch.

(** [torch.cat((a, b), 1)] along the second axis. *)
Definition cat2_axis1 (a b : tensor2 A) : result (tensor2 A) :=
  if rows2 a =? rows2 b then
    Ok (T2 (rows2 a) (cols2 a + cols2 b)
           (fun r c => if c <? cols2 a then at2 a r c
                       else at2 b r (c - cols2 a)))
  else Err size_mismatch.

(** [torch.cat(ts)] of one-element tensors *)
Definition cat_elems (ts : list A) : result (tensor1 A) :=
  match ts with
  | [] => Err empty_cat
  | _ => Ok (T1 (length ts) (fun k => nth k ts zero))
  end.

(** [torch.stack(ts)] of equally shaped matrices *)
Definition stack2 (ts : list (tensor2 A)) : result (tensor3 A) :=
  match ts with
  | [] => Err empty_cat
  | t0 :: _ =>
      if forallb (fun t => (rows2 t =? rows2 t0) && (cols2 t =? cols2 t0))
                 ts
      then Ok (T3 (length ts) (rows2 t0) (cols2 t0)
                  (fun i => at2 (nth i ts t0)))
      else Err size_mismatch
  end.

(** ** Reductions *)

(** Summation of [f 0 .. f (n-1)] from left to right, starting at zero. *)
Definition sum_n (n : nat) (f : nat -> A) : A :=
  fold_left (fun acc k => add acc (f k)) (seq 0 n) zero.

(** [v.sum()] *)
Definition sum1 (v : tensor1 A) : A := sum_n (size1 v) (at1 v).

(** [t.sum()], over the entries in row-major order *)
Definition sum2 (t : tensor2 A) : A :=
  sum_n (rows2 t * cols2 t)
        (fun ix => at2 t (ix / cols2 t) (ix mod cols2 t)).

(** [torch.mean(v)] *)
Definition mean1 (v : tensor1 A) : A := div (sum1 v) (of_nat (size1 v)).

(** [torch.dot(u, v)] *)
Definition dot (u v : tensor1 A) : result A :=
  if size1 u =? size1 v then
    Ok (sum_n (size1 u) (fun d => mul (at1 u d) (at1 v d)))
  else Err size_mismatch.

(** [torch.mm(a, b)] *)
Definition mm (a b : tensor2 A) : result (tensor2 A) :=
  if cols2 a =? rows2 b then
    Ok (T2 (rows2 a) (cols2 b)
           (fun r c => sum_n (cols2 a) (fun d => mul (at2 a r d) (at2 b d c))))
  else Err size_mismatch.

(** ** Entry-wise operations *)

Definition map1 (f : A -> A) (v : tensor1 A) : tensor1 A :=
  T1 (size1 v) (fun k => f (at1 v k)).

Definition map2 (f : A -> A) (t : tensor2 A) : tensor2 A :=
  T2 (rows2 t) (cols2 t) (fun r c => f (at2 t r c)).

(** A binary operator on two vectors, with the broadcasting rule: the
    sizes agree, or one of them is one. *)
Definition broadcast1 (op : A -> A -> A) (u v : tensor1 A)
  : result (tensor1 A) :=
  if size1 u =? size1 v then
    Ok (T1 (size1 u) (fun k => op (at1 u k) (at1 v k)))
  else if size1 u =? 1 then
    Ok (T1 (size1 v) (fun k => op (at1 u 0) (at1 v k)))
  else if size1 v =? 1 then
    Ok (T1 (size1 u) (fun k => op (at1 u k) (at1 v 0)))
  else Err size_mismatch.

(** The entries of a tensor, as lists, to display and compare results. *)
Definition to_list1 (v : tensor1 A) : list A :=
  map (at1 v) (seq 0 (size1 v)).

Definition to_list2 (t : tensor2 A) : list (list A) :=
  map (fun r => map (at2 t r) (seq 0 (cols2 t))) (seq 0 (rows2 t)).

Definition to_list3 (t : tensor3 A) : list (list (list A)) :=
  map (fun i => map (fun j => map (at3 t i j) (seq 0 (dim2 t)))
                    (seq 0 (dim1 t)))
      (seq 0 (dim0 t)).

End Ops.

End Torch.

Import Torch.

(* ================================================================== *)
(** * Interfaces of the library code outside the repository            *)
(* ================================================================== *)

(** [torch.nn.utils.rnn]: packed sequences. *)
Class Packing (A : Type) : Type := {
  PackedSequence : Type;
  (** [pack_padded_sequence(input, lengths, batch_first=...)] *)
  pack_padded_sequence :
    tensor3 A -> list nat -> bool -> result PackedSequence;
  (** [pad_packed_sequence(sequence, batch_first=...)] *)
  pad_packed_sequence :
    PackedSequence -> bool -> result (tensor3 A * list nat)
}.

(** [torch.nn.functional.pairwise_distance(x1, x2)], one distance per row. *)
Class Distance (A : Type) : Type := {
  pairwise_distance : tensor2 A -> tensor2 A -> result (tensor1 A)
}.

(** The global random number generator behind [torch.randn] and the
    initialisation of fresh layers. *)
Class Random (A : Type) : Type := {
  generator : Type;
  draw : generator -> A * generator
}.

Module nn.

Section Layers.
Context {A : Type} `{Scalar A} `{Random A}.

Fixpoint draws (n : nat) (g : generator) : list A * generator :=
  match n with
  | 0 => ([], g)
  | S n' =>
      let (x, g1) := draw g in
      let (xs, g2) := draws n' g1 in
      (x :: xs, g2)
  end.

(** [torch.randn(n)], [torch.randn(r, c)], [torch.randn(a, b, c)] *)
Definition randn1 (n : nat) (g : generator) : tensor1 A * generator :=
  let (xs, g') := draws n g in
  (T1 n (fun k => nth k xs zero), g').

Definition randn2 (r c : nat) (g : generator) : tensor2 A * generator :=
  let (xs, g') := draws (r * c) g in
  (T2 r c (fun i j => nth (i * c + j) xs zero), g').

Definition randn3 (a b c : nat) (g : generator)
  : tensor3 A * generator :=
  let (xs, g') := draws (a * b * c) g in
  (T3 a b c (fun i j k => nth ((i * b + j) * c + k) xs zero), g').

(** [nn.Linear(in_features, out_features)] *)
Record Linear : Type := {
  in_features : nat;
  out_features : nat;
  weight : tensor2 A;     (* out_features x in_features *)
  bias : tensor1 A        (* out_features *)
}.

Definition Linear_new (n_in n_out : nat) (g : generator)
  : Linear * generator :=
  let (w, g1) := randn2 n_out n_in g in
  let (b, g2) := randn1 n_out g1 in
  ({| in_features := n_in; out_features := n_out;
      weight := w; bias := b |}, g2).

(** [y = x W^T + b] *)
Definition Linear_forward (l : Linear) (x : tensor2 A)
  : result (tensor2 A) :=
  y <- mm x (permute10 (weight l)) ;;
  if cols2 y =? size1 (bias l) then
    Ok (T2 (rows2 y) (cols2 y)
           (fun r c => add (at2 y r c) (at1 (bias l) c)))
  else Err size_mismatch.

(** The arguments of [nn.LSTM(...)]. *)
Record lstm_config : Type := {
  input_size : nat;
  hidden_size : nat;
  num_layers : nat;
  lstm_batch_first : bool;
  bidirectional : bool;
  lstm_dropout : A
}.

End Layers.

Arguments Linear A : clear implicits.
Arguments lstm_config A : clear implicits.

End nn.

Import nn.

(** [torchvision.models.inception_v3]: everything up to the pooled
    2048-wide features, and the auxiliary logits returned next to the
    output. *)
Class Vision (A : Type) : Type := {
  image_batch : Type;
  pretrained_fc : Linear A;
  inception_trunk : image_batch -> result (tensor2 A * tensor2 A)
}.

(** [nn.LSTM]: its weights and its forward pass on a packed sequence. *)
Class Recurrent (A : Type) `{Packing A} `{Random A} : Type := {
  lstm_weights : Type;
  lstm_init : lstm_config A -> generator -> lstm_weights * generator;
  lstm_apply :
    lstm_config A -> lstm_weights -> PackedSequence ->
    tensor3 A * tensor3 A ->
    result (PackedSequence * (tensor3 A * tensor3 A))
}.
Arguments Recurrent A {_ _}.

Module rnn.

Section LSTM.
Context {A : Type} `{Scalar A} `{Packing A} `{Random A}.
Context `{!Recurrent A}.

(** An [nn.LSTM] module: the arguments it was built with and its
    weights. *)
Record LSTM : Type := {
  lstm_cfg : lstm_config A;
  lstm_par : lstm_weights
}.

(** [nn.LSTM(input_size, hidden_size, ...)] *)
Definition LSTM_new (cfg : lstm_config A) (g : generator)
  : LSTM * generator :=
  let (w, g') := lstm_init cfg g in
  ({| lstm_cfg := cfg; lstm_par := w |}, g').

(** The call [lstm(input, hidden)] *)
Definition LSTM_forward (l : LSTM) (input : PackedSequence)
           (hidden : tensor3 A * tensor3 A)
  : result (PackedSequence * (tensor3 A * tensor3 A)) :=
  lstm_apply (lstm_cfg l) (lstm_par l) input hidden.

End LSTM.

End rnn.

Import rnn.

(* ================================================================== *)
(** * bilstm/src/model.py                                              *)
(* ================================================================== *)

Module Model.

Section FullBiLSTM.
Context {A : Type} `{Scalar A} `{Packing A} `{Random A} `{Vision A}.
Context `{!Recurrent A}.

Record Inception : Type := { fc : Linear A }.

(** [models.inception_v3(pretrained=True)] *)
Definition inception_v3 : Inception := {| fc := pretrained_fc |}.

(** The call [cnn(images)], which yields the output of [fc] paired with
    the auxiliary logits. *)
Definition Inception_forward (cnn : Inception) (images : image_batch)
  : result (tensor2 A * tensor2 A) :=
  ' (pooled, aux) <- inception_trunk images ;;
  y <- Linear_forward (fc cnn) pooled ;;
  ret (y, aux).

Record FullBiLSTM : Type := {
  input_dim : nat;
  hidden_dim : nat;
  batch_first : bool;
  cnn : Inception;
  lstm : LSTM
}.

(** [FullBiLSTM.__init__] *)
Definition init (input_dim hidden_dim : nat) (batch_first : bool)
           (dropout : A) (g : generator) : FullBiLSTM * generator :=
  let cnn0 := inception_v3 in
  let (new_fc, g1) := Linear_new 2048 input_dim g in
  let cnn1 := {| fc := new_fc |} in
  let (rnn, g2) :=
    LSTM_new {| input_size := input_dim; hidden_size := hidden_dim;
                num_layers := 1; lstm_batch_first := batch_first;
                bidirectional := true; lstm_dropout := dropout |} g1 in
  ({| input_dim := input_dim; hidden_dim := hidden_dim;
      batch_first := batch_first; cnn := cnn1; lstm := rnn |}, g2).

(** The body of the inner loop of [create_packed_seq], for row [i] with
    length [seq_len] and position [j]. *)
Definition fill_position (feats : tensor2 A)
           (lookup_table : list (list Z)) (i seq_len j : nat)
           (seqs : tensor3 A) : result (tensor3 A) :=
  if j <? seq_len then
    row <- Py.getitem lookup_table i ;;
    idx <- Py.getitem row j ;;
    v <- getitem2 feats idx ;;
    setitem3 seqs i j v
  else
    setitem3 seqs i j (zeros1 (cols2 feats)).

(** The two nested loops of [create_packed_seq]. *)
Definition fill_padded (feats : tensor2 A) (seq_lens : list nat)
           (lookup_table : list (list Z)) (seqs : tensor3 A)
  : result (tensor3 A) :=
  for_each (enumerate seq_lens) seqs (fun '(i, seq_len) seqs =>
    m <- Py.max seq_lens ;;
    for_each (range m) seqs (fill_position feats lookup_table i seq_len)).

(** The padded batch built by [create_packed_seq], before it is
    reordered. *)
Definition padded_seqs (feats : tensor2 A) (seq_lens : list nat)
           (lookup_table : list (list Z)) : result (tensor3 A) :=
  m <- Py.max seq_lens ;;
  let seqs := zeros3 (length seq_lens) m (cols2 feats) in
  fill_padded feats seq_lens lookup_table seqs.

(** [sorted(range(len(seq_lens)), key=lambda k: seq_lens[k], reverse=True)] *)
Definition length_order (seq_lens : list nat) : list nat :=
  sorted_desc (fun k => nth k seq_lens 0) (range (length seq_lens)).

(** [FullBiLSTM.create_packed_seq] *)
Definition create_packed_seq (self : FullBiLSTM) (feats : tensor2 A)
           (seq_lens : list nat) (lookup_table : list (list Z))
  : result PackedSequence :=
  seqs <- padded_seqs feats seq_lens lookup_table ;;
  seqs <- index_select3 seqs (length_order seq_lens) ;;
  let ordered_seq_lens := sorted_desc (fun l => l) seq_lens in
  let seqs := if negb (batch_first self) then permute102 seqs else seqs in
  pack_padded_sequence seqs ordered_seq_lens (batch_first self).

(** [FullBiLSTM.forward] *)
Definition forward (self : FullBiLSTM) (images : image_batch)
           (seq_lens : list nat) (lookup_table : list (list Z))
           (hidden : tensor3 A * tensor3 A)
  : result (PackedSequence *
            (PackedSequence * (tensor3 A * tensor3 A))) :=
  ' (feats, _) <- Inception_forward (cnn self) images ;;
  packed_feats <- create_packed_seq self feats seq_lens lookup_table ;;
  out <- LSTM_forward (lstm self) packed_feats hidden ;;
  ret (packed_feats, out).

(** [FullBiLSTM.init_hidden] *)
Definition init_hidden (self : FullBiLSTM) (batch_size : nat)
           (g : generator) : (tensor3 A * tensor3 A) * generator :=
  let (h0, g1) := randn3 2 batch_size (hidden_dim self) g in
  let (c0, g2) := randn3 2 batch_size (hidden_dim self) g1 in
  ((h0, c0), g2).

End FullBiLSTM.

End Model.

(* ================================================================== *)
(** * losses.py                                                        *)
(* ================================================================== *)

Module Losses.

Module LSTMLosses.

Section LSTMLosses.
Context {A : Type} `{Scalar A} `{Packing A}.

Record t : Type := { batch_first : bool; cuda : bool }.

(** The normalising sum of one timestep:
    [torch.cat([torch.exp(torch.mm(seq_hiddens[j].unsqueeze(0),
                                   feats[k].permute(1, 0))).sum()
                for k in range(len(seq_lens))]).sum()] *)
Definition denom (feats : tensor3 A) (seq_lens : list nat)
           (seq_hiddens : tensor2 A) (j : nat) : result A :=
  terms <- comprehension
             (fun k =>
                hj <- row2 seq_hiddens j ;;
                fk <- getitem3 feats k ;;
                p <- mm (unsqueeze0 hj) (permute10 fk) ;;
                ret (sum2 (map2 exp p)))
             (range (length seq_lens)) ;;
  c <- cat_elems terms ;;
  ret (sum1 c).

(** The body of [for j in range(seq_len)]; the accumulator is the
    pair [(fw_seq_loss, bw_seq_loss)]. *)
Definition timestep (feats : tensor3 A) (seq_lens : list nat)
           (fw_seq_feats fw_seq_hiddens : tensor2 A)
           (bw_seq_feats bw_seq_hiddens : tensor2 A)
           (j : nat) (acc : A * A) : result (A * A) :=
  let (fw_seq_loss, bw_seq_loss) := acc in
  fw_denom <- denom feats seq_lens fw_seq_hiddens j ;;
  fw_h <- row2 fw_seq_hiddens j ;;
  fw_x <- row2 fw_seq_feats (j + 1) ;;
  fw_d <- dot fw_h fw_x ;;
  let fw_prob := div (exp fw_d) fw_denom in
  let fw_seq_loss := add fw_seq_loss fw_prob in
  bw_denom <- denom feats seq_lens bw_seq_hiddens j ;;
  bw_h <- row2 bw_seq_hiddens j ;;
  bw_x <- row2 bw_seq_feats j ;;
  bw_d <- dot bw_h bw_x ;;
  let bw_prob := div (exp bw_d) bw_denom in
  let bw_seq_loss := add bw_seq_loss bw_prob in
  ret (fw_seq_loss, bw_seq_loss).

(** The body of [for i, seq_len in enumerate(seq_lens)]; the
    accumulator is the pair [(fw_loss, bw_loss)]. *)
Definition sequence_loss (feats hidden : tensor3 A)
           (seq_lens : list nat) (i seq_len : nat) (acc : A * A)
  : result (A * A) :=
  let (fw_loss, bw_loss) := acc in
  let start_stop := zeros2 1 (dim2 feats) in
  let half := dim2 hidden / 2 in
  fw_x <- select_slice3 feats i seq_len 0 (dim2 feats) ;;
  fw_seq_feats <- cat2 fw_x start_stop ;;
  fw_seq_hiddens <- select_slice3 hidden i seq_len 0 half ;;
  bw_x <- select_slice3 feats i seq_len 0 (dim2 feats) ;;
  bw_seq_feats <- cat2 start_stop bw_x ;;
  bw_seq_hiddens <- select_slice3 hidden i seq_len half (dim2 hidden) ;;
  ' (fw_seq_loss, bw_seq_loss) <-
    for_each (range seq_len) (zero, zero)
             (timestep feats seq_lens fw_seq_feats fw_seq_hiddens
                       bw_seq_feats bw_seq_hiddens) ;;
  let fw_seq_loss := div (neg (log fw_seq_loss)) (of_nat seq_len) in
  let bw_seq_loss := div (neg (log bw_seq_loss)) (of_nat seq_len) in
  ret (add fw_loss fw_seq_loss, add bw_loss bw_seq_loss).

(** [LSTMLosses.forward] *)
Definition forward (self : t) (packed_feats : PackedSequence)
           (hidden : tensor3 A) : result (A * A) :=
  ' (feats, seq_lens) <-
    pad_packed_sequence packed_feats (batch_first self) ;;
  ' (fw_loss, bw_loss) <-
    for_each (enumerate seq_lens) (zero, zero)
             (fun '(i, seq_len) acc =>
                sequence_loss feats hidden seq_lens i seq_len acc) ;;
  ret (div fw_loss (of_nat (length seq_lens)),
       div bw_loss (of_nat (length seq_lens))).

End LSTMLosses.

End LSTMLosses.

Module ContrastiveLoss.

Section ContrastiveLoss.
Context {A : Type} `{Scalar A} `{Distance A}.

Record t : Type := { margin : A }.

(** [ContrastiveLoss.forward] *)
Definition forward (self : t) (output1 output2 : tensor2 A)
           (label : tensor1 A) : result A :=
  euclidean_distance <- pairwise_distance output1 output2 ;;
  similar <-
    broadcast1 mul (map1 (sub one) label)
               (map1 (fun d => pow d 2) euclidean_distance) ;;
  dissimilar <-
    broadcast1 mul label
               (map1 (fun x => pow x 2)
                     (map1 (fun x => clamp_min x zero)
                           (map1 (sub (margin self))
                                 euclidean_distance))) ;;
  total <- broadcast1 add similar dissimilar ;;
  ret (mean1 total).

End ContrastiveLoss.

Arguments t A : clear implicits.

End ContrastiveLoss.

Module SBContrastiveLoss.

Section SBContrastiveLoss.
Context {A : Type} `{Scalar A} `{Distance A}.

Record t : Type := { margin : A }.

(** [SBContrastiveLoss.forward] *)
Definition forward (self : t) (desc1 desc2 : tensor2 A)
           (label : tensor1 A) : result A :=
  euclidean_distance <- pairwise_distance desc1 desc2 ;;
  similar <-
    broadcast1 mul (map1 (sub one) label)
               (map1 (fun d => pow d 2) euclidean_distance) ;;
  dissimilar <-
    broadcast1 mul label
               (map1 (fun x => pow x 2)
                     (map1 (fun x => clamp_min x zero)
                           (map1 (sub (margin self))
                                 euclidean_distance))) ;;
  total <- broadcast1 add similar dissimilar ;;
  ret (mean1 total).

End SBContrastiveLoss.

Arguments t A : clear implicits.

End SBContrastiveLoss.

End Losses.

(* ================================================================== *)
(** * use_model.py                                                     *)
(* ================================================================== *)

Module UseModel.

Section UseModel.
Context {A : Type} `{Scalar A} `{Packing A} `{Random A}.
Context `{!Recurrent A}.

(** [[torch.randn(data_dim, sl) for sl in seq_lens]] *)
Fixpoint random_seqs (data_dim : nat) (seq_lens : list nat)
         (g : generator) : list (tensor2 A) * generator :=
  match seq_lens with
  | [] => ([], g)
  | sl :: rest =>
      let (s, g1) := randn2 data_dim sl g in
      let (ss, g2) := random_seqs data_dim rest g1 in
      (s :: ss, g2)
  end.

(** The body of [for seq in seqs]; the accumulator is [t_seqs]. *)
Definition pad_seq (data_dim : nat) (seq_lens : list nat)
           (seq : tensor2 A) (t_seqs : list (tensor2 A))
  : result (list (tensor2 A)) :=
  m <- Py.max seq_lens ;;
  if cols2 seq <? m then
    m' <- Py.max seq_lens ;;
    padded <- cat2_axis1 seq (zeros2 data_dim (m' - cols2 seq)) ;;
    ret (t_seqs ++ [padded])
  else ret (t_seqs ++ [seq]).

(** [create_random_packed_seq] *)
Definition create_random_packed_seq (data_dim : nat)
           (seq_lens : list nat) (g : generator)
  : result PackedSequence * generator :=
  let (seqs, g') := random_seqs data_dim seq_lens g in
  (t_seqs <- for_each seqs [] (pad_seq data_dim seq_lens) ;;
   t_seqs <- stack2 t_seqs ;;
   let t_seqs := permute021 t_seqs in
   pack_padded_sequence t_seqs seq_lens true,
   g').

Record Network : Type := {
  input_dim : nat;
  hidden_dim : nat;
  lstm : LSTM
}.


(** [Network.forward] *)
Definition forward (self : Network) (data : PackedSequence)
           (hidden : tensor3 A * tensor3 A)
  : result (PackedSequence * (tensor3 A * tensor3 A)) :=
  LSTM_forward (lstm self) data hidden.

(** [Network.init_hidden] *)
Definition init_hidden (self : Network) (g : generator)
  : (tensor3 A * tensor3 A) * generator :=
  let (h0, g1) := randn3 1 1 (hidden_dim self) g in
  let (c0, g2) := randn3 1 1 (hidden_dim self) g1 in
  ((h0, c0), g2).


End UseModel.

End UseModel.

(* ================================================================== *)
(** * The losses as programs on a store of objects                     *)
(* ================================================================== *)

(** In the running program the arguments of [forward] are references to
    objects, and every tensor operation that is not in place allocates its
    result.  This module embeds the two contrastive losses at that level:
    [forward] takes references and returns the reference of the loss. *)

Module Heap.

Section Heap.
Context {A : Type} `{Scalar A} `{Distance A}.

Inductive object : Type :=
| Vector (v : tensor1 A)
| Matrix (m : tensor2 A)
| Number (x : A)
(** a loss module, with its attribute [margin] *)
| LossModule (margin : A).

Definition heap : Type := list object.
Definition ref : Type := nat.

(** A computation that reads and extends the store and may raise. *)
Definition M (X : Type) : Type := heap -> result X * heap.

Definition unit_M {X} (x : X) : M X := fun h => (Ok x, h).

Definition bind_M {X Y} (m : M X) (k : X -> M Y) : M Y :=
  fun h =>
    match m h with
    | (Ok x, h') => k x h'
    | (Err e, h') => (Err e, h')
    end.

Definition lift {X} (r : result X) : M X := fun h => (r, h).

Definition type_error : exn := Raise TypeError "unexpected operand".

Definition read_vector (r : ref) : M (tensor1 A) :=
  fun h => match nth_error h r with
           | Some (Vector v) => (Ok v, h)
           | _ => (Err type_error, h)
           end.

Definition read_matrix (r : ref) : M (tensor2 A) :=
  fun h => match nth_error h r with
           | Some (Matrix m) => (Ok m, h)
           | _ => (Err type_error, h)
           end.

(** [self.margin] *)
Definition getattr_margin (self : ref) : M A :=
  fun h => match nth_error h self with
           | Some (LossModule m) => (Ok m, h)
           | _ => (Err type_error, h)
           end.

Definition alloc (o : object) : M ref :=
  fun h => (Ok (length h), h ++ [o]).

End Heap.

Arguments object A : clear implicits.
Arguments heap A : clear implicits.
Arguments M A X : clear implicits.

End Heap.

Import Heap.

Declare Scope heap_scope.
Delimit Scope heap_scope with heap.
Notation "x <- m ;; k" := (bind_M m (fun x => k))
  (at level 61, m at next level, right associativity) : heap_scope.

Module HeapLosses.

Section HeapLosses.
Context {A : Type} `{Scalar A} `{Distance A}.
Local Open Scope heap_scope.

(** [F.pairwise_distance(x1, x2)] *)
Definition F_pairwise_distance (x1 x2 : ref) : M A ref :=
  a <- read_matrix x1 ;;
  b <- read_matrix x2 ;;
  d <- lift (pairwise_distance a b) ;;
  alloc (Vector d).

(** [c - t] for a number [c] *)
Definition rsub (c : A) (t : ref) : M A ref :=
  v <- read_vector t ;;
  alloc (Vector (map1 (sub c) v)).

(** [torch.pow(t, n)] *)
Definition torch_pow (t : ref) (n : nat) : M A ref :=
  v <- read_vector t ;;
  alloc (Vector (map1 (fun x => pow x n) v)).

(** [torch.clamp(t, min=lo)] *)
Definition torch_clamp (t : ref) (lo : A) : M A ref :=
  v <- read_vector t ;;
  alloc (Vector (map1 (fun x => clamp_min x lo) v)).

(** [a * b] and [a + b] *)
Definition tensor_mul (a b : ref) : M A ref :=
  u <- read_vector a ;;
  v <- read_vector b ;;
  w <- lift (broadcast1 mul u v) ;;
  alloc (Vector w).

Definition tensor_add (a b : ref) : M A ref :=
  u <- read_vector a ;;
  v <- read_vector b ;;
  w <- lift (broadcast1 add u v) ;;
  alloc (Vector w).

(** [torch.mean(t)] *)
Definition torch_mean (t : ref) : M A ref :=
  v <- read_vector t ;;
  alloc (Number (mean1 v)).

(** [ContrastiveLoss.forward] *)
Definition ContrastiveLoss_forward (self output1 output2 label : ref)
  : M A ref :=
  euclidean_distance <- F_pairwise_distance output1 output2 ;;
  not_label <- rsub one label ;;
  squared <- torch_pow euclidean_distance 2 ;;
  similar <- tensor_mul not_label squared ;;
  margin <- getattr_margin self ;;
  gap <- rsub margin euclidean_distance ;;
  clamped <- torch_clamp gap zero ;;
  hinge <- torch_pow clamped 2 ;;
  dissimilar <- tensor_mul label hinge ;;
  total <- tensor_add similar dissimilar ;;
  torch_mean total.

(** [SBContrastiveLoss.forward] *)
Definition SBContrastiveLoss_forward (self desc1 desc2 label : ref)
  : M A ref :=
  euclidean_distance <- F_pairwise_distance desc1 desc2 ;;
  not_label <- rsub one label ;;
  squared <- torch_pow euclidean_distance 2 ;;
  similar <- tensor_mul not_label squared ;;
  margin <- getattr_margin self ;;
  gap <- rsub margin euclidean_distance ;;
  clamped <- torch_clamp gap zero ;;
  hinge <- torch_pow clamped 2 ;;
  dissimilar <- tensor_mul label hinge ;;
  total <- tensor_add similar dissimilar ;;
  torch_mean total.

End HeapLosses.

End HeapLosses.

(* ================================================================== *)
(** * The formulas of the specification                                *)
(* ================================================================== *)

(** These definitions follow the words of the specification and of the
    docstrings, not the code; the theorems below compare them with the
    embedded functions. *)

Module Formulas.

Section Formulas.
Context {A : Type} `{Scalar A}.

(** The dot product of the first [n] entries of two vectors. *)
Definition dotp (n : nat) (u v : nat -> A) : A :=
  sum_n n (fun d => mul (u d) (v d)).

(** ** Contrastive loss *)

(** [mean((1 - label) * d^2 + label * max(0, margin - d)^2)] over [n]
    pairs. *)
Definition contrastive_term (margin l d : A) : A :=
  add (mul (sub one l) (pow d 2))
      (mul l (pow (clamp_min (sub margin d) zero) 2)).

Definition contrastive (margin : A) (n : nat) (label d : nat -> A) : A :=
  div (sum_n n (fun i => contrastive_term margin (label i) (d i)))
      (of_nat n).

(** ** Stochastic bidirectional contrastive loss

    [sum_f(sum_k(max(0, m - d(f, v) + d(f, v_k)))) +
     sum_v(sum_k(max(0, m - d(v, f) + d(v, f_k))))],
    where row [i] of the first batch is [f], row [i] of the second is its
    match [v], and [v_k], [f_k] are the other rows of the batch. *)
Definition hinge (margin pos neg_ : A) : A :=
  clamp_min (add (sub margin pos) neg_) zero.

Definition sum_others (n i : nat) (term : nat -> A) : A :=
  fold_left (fun acc k => add acc (term k))
            (filter (fun k => negb (k =? i)) (seq 0 n)) zero.

Definition sb_contrastive (margin : A) (n : nat)
           (d : nat -> nat -> A) (d' : nat -> nat -> A) : A :=
  add (sum_n n (fun i => sum_others n i
                 (fun k => hinge margin (d i i) (d i k))))
      (sum_n n (fun i => sum_others n i
                 (fun k => hinge margin (d' i i) (d' i k)))).

(** ** Sequence likelihood losses *)

Section Likelihood.
Variables (x hidden : tensor3 A) (seq_lens : list nat).

Let half := dim2 hidden / 2.

(** The forward and backward halves of the hidden state. *)
Definition h_fw (i j d : nat) : A := at3 hidden i j d.
Definition h_bw (i j d : nat) : A := at3 hidden i j (half + d).

(** The sequence [i] followed by the zero stop vector. *)
Definition x_stop (i j d : nat) : A :=
  if j <? nth i seq_lens 0 then at3 x i j d else zero.

(** The sequence [i] preceded by the zero start vector. *)
Definition x_start (i j d : nat) : A :=
  if j =? 0 then zero else at3 x i (j - 1) d.

(** The sum, over every sequence and every position of the padded
    batch, of [exp(h . x[k, p])]. *)
Definition normaliser (h : nat -> A) : A :=
  sum_n (length seq_lens) (fun k =>
    sum_n (dim1 x) (fun p => exp (dotp (dim2 x) h (at3 x k p)))).

Definition fw_prob (i j : nat) : A :=
  div (exp (dotp (dim2 x) (h_fw i j) (x_stop i (j + 1))))
      (normaliser (h_fw i j)).

Definition bw_prob (i j : nat) : A :=
  div (exp (dotp (dim2 x) (h_bw i j) (x_start i j)))
      (normaliser (h_bw i j)).

(** [-log(sum_j prob_j) / seq_lens[i]] *)
Definition seq_nll (prob : nat -> nat -> A) (i : nat) : A :=
  div (neg (log (sum_n (nth i seq_lens 0) (prob i))))
      (of_nat (nth i seq_lens 0)).

Definition batch_mean (f : nat -> A) : A :=
  div (sum_n (length seq_lens) f) (of_nat (length seq_lens)).

Definition likelihood_losses : A * A :=
  (batch_mean (seq_nll fw_prob), batch_mean (seq_nll bw_prob)).

End Likelihood.

End Formulas.

End Formulas.

(* ================================================================== *)
(** * Instances over the real numbers                                  *)
(* ================================================================== *)

Module Reference.

#[export] Instance R_Scalar : Scalar R := {|
  zero := 0%R;
  one := 1%R;
  add := Rplus;
  sub := Rminus;
  mul := Rmult;
  div := Rdiv;
  neg := Ropp;
  exp := Rtrigo_def.exp;
  log := ln;
  pow := fun x n => (x ^ n)%R;
  clamp_min := fun x lo => Rmax x lo;
  of_nat := INR
|}.

(** The Euclidean distance between row [i] of [x1] and row [k] of [x2]. *)
Definition row_distance (x1 x2 : tensor2 R) (i k : nat) : R :=
  sqrt (sum_n (cols2 x1) (fun c => ((at2 x1 i c - at2 x2 k c) ^ 2)%R)).

(** The distance between the corresponding rows of two equally shaped
    matrices. *)
Definition euclidean (x1 x2 : tensor2 R) : result (tensor1 R) :=
  if (rows2 x1 =? rows2 x2) && (cols2 x1 =? cols2 x2) then
    Ok (T1 (rows2 x1) (fun i => row_distance x1 x2 i i))
  else Err size_mismatch.

#[export] Instance R_Distance : Distance R := {|
  pairwise_distance := euclidean
|}.

Section Packed.
Context {A : Type} `{Scalar A}.

(** A packed sequence, kept as the batch-major padded batch it stands
    for and the lengths of its rows. *)
Record packed : Type := { padded : tensor3 A; lengths : list nat }.

Fixpoint descending (l : list nat) : bool :=
  match l with
  | [] => true
  | a :: l' =>
      match l' with
      | [] => true
      | b :: _ => (b <=? a) && descending l'
      end
  end.

Definition bad_lengths : exn :=
  Raise ValueError "lengths must be positive, decreasing and one per row".

Definition pack (input : tensor3 A) (lens : list nat) (batch_first : bool)
  : result packed :=
  let x := if batch_first then input else permute102 input in
  if forallb (fun l => 0 <? l) lens && descending lens
     && (length lens =? dim0 x) && (hd 0 lens <=? dim1 x)
     && negb (length lens =? 0)
  then Ok {| padded :=
               T3 (dim0 x) (hd 0 lens) (dim2 x)
                  (fun i j k =>
                     if j <? nth i lens 0 then at3 x i j k else zero);
             lengths := lens |}
  else Err bad_lengths.

Definition unpack (p : packed) (batch_first : bool)
  : result (tensor3 A * list nat) :=
  Ok (if batch_first then padded p else permute102 (padded p),
      lengths p).

Definition Packed_Packing : Packing A := {|
  PackedSequence := packed;
  pack_padded_sequence := pack;
  pad_packed_sequence := unpack
|}.

End Packed.

#[export] Existing Instance Packed_Packing.

Section Doubles.
Context {A : Type} `{Scalar A}.

(** A generator that counts. *)
Definition Counter_Random : Random A := {|
  generator := nat;
  draw := fun g => (of_nat g, S g)
|}.

(** A recurrent layer without weights that hands its input on. *)
Definition Plain_Recurrent : @Recurrent A Packed_Packing Counter_Random :=
  {| lstm_weights := unit;
     lstm_init := fun _ g => (tt, g);
     lstm_apply := fun _ _ input hidden => Ok (input, hidden) |}.

(** A backbone whose images are their own pooled features. *)
Definition Plain_Vision : Vision A := {|
  image_batch := tensor2 A;
  pretrained_fc := {| in_features := 2048; out_features := 1000;
                      weight := zeros2 1000 2048;
                      bias := zeros1 1000 |};
  inception_trunk := fun images => Ok (images, zeros2 (rows2 images) 1000)
|}.

End Doubles.

#[export] Existing Instance Counter_Random.
#[export] Existing Instance Plain_Recurrent.
#[export] Existing Instance Plain_Vision.

End Reference.

(* ================================================================== *)
(** * Preconditions and laws used in the statements                   *)
(* ================================================================== *)

(** ** The arguments of [create_packed_seq] *)

(** [idx] is an index the matrix accepts: Python counts a negative index
    from the end. *)
Definition valid_index (n : nat) (idx : Z) : bool :=
  ((- Z.of_nat n <=? idx) && (idx <? Z.of_nat n))%Z.

(** A row of the lookup table has at least [seq_len] entries, and the first
    [seq_len] of them are indices of rows of [feats]. *)
Definition valid_row (n seq_len : nat) (row : list Z) : bool :=
  (seq_len <=? length row) && forallb (valid_index n) (firstn seq_len row).

(** The lookup table has one row per sequence, each of them valid. *)
Definition valid_lookup {A} (feats : tensor2 A) (seq_lens : list nat)
           (lookup_table : list (list Z)) : bool :=
  (length lookup_table =? length seq_lens) &&
  forallb (fun p => valid_row (rows2 feats) (fst p) (snd p))
          (combine seq_lens lookup_table).

Definition nonempty {X} (l : list X) : bool :=
  match l with [] => false | _ => true end.

Definition all_positive (l : list nat) : bool := forallb (fun n => 0 <? n) l.

(** [lookup_table[i][j]], when both subscripts are in range. *)
Definition lookup (lookup_table : list (list Z)) (i j : nat) : option Z :=
  match nth_error lookup_table i with
  | Some row => nth_error row j
  | None => None
  end.

(** Every position inside a sequence has a lookup entry, and the entry is
    an index of a row of [feats]. *)
Definition lookups_in_range {A} (feats : tensor2 A) (seq_lens : list nat)
           (lookup_table : list (list Z)) : Prop :=
  forall i j, i < length seq_lens -> j < nth i seq_lens 0 ->
    exists idx, lookup lookup_table i j = Some idx /\
                valid_index (rows2 feats) idx = true.

(** The exception [e] is the one of a position inside a sequence whose
    lookup entry is missing, or is not an index of a row of [feats]. *)
Definition lookup_failure {A} (feats : tensor2 A) (seq_lens : list nat)
           (lookup_table : list (list Z)) (e : exn) : Prop :=
  exists i j, i < length seq_lens /\ j < nth i seq_lens 0 /\
    ((lookup lookup_table i j = None /\ e = list_index) \/
     (exists idx, lookup lookup_table i j = Some idx /\
                  valid_index (rows2 feats) idx = false /\
                  e = index_error)).

(** ** The arguments of [LSTMLosses.forward] *)

(** The shapes [LSTMLosses.forward] needs: a row of features and of hidden
    states for every sequence, at least as many positions as the longest
    sequence, and a hidden state twice as wide as the features. *)
Definition lstm_shapes {A} (feats hidden : tensor3 A) (seq_lens : list nat)
  : bool :=
  (length seq_lens <=? dim0 feats) && (length seq_lens <=? dim0 hidden) &&
  forallb (fun l => (l <=? dim1 feats) && (l <=? dim1 hidden)) seq_lens &&
  (dim2 hidden =? 2 * dim2 feats).


(** ** Arithmetic *)

(** The three facts of arithmetic that make a zero vector count as one. *)
Class ScalarLaws (A : Type) `{Scalar A} : Prop := {
  mul_zero_r : forall x : A, mul x zero = zero;
  add_zero_zero : add (zero : A) zero = zero;
  exp_zero : exp (zero : A) = one
}.
Arguments ScalarLaws A {_}.

(** ** Exceptions *)

(** The exceptions raised by the language runtime and by the tensor
    operations used in the repository. *)
Definition primitive_errors : list exn :=
  [max_empty; list_index; index_error; size_mismatch; empty_cat].

(* ================================================================== *)
(** * Facts about the runtime                                          *)
(* ================================================================== *)

Section PyFacts.

Lemma bind_Ok {X Y} (x : X) (k : X -> result Y) : bind (Ok x) k = k x.
Proof. reflexivity. Qed.

Lemma bind_ok_inv {X Y} (m : result X) (k : X -> result Y) (y : Y) :
  bind m k = Ok y -> exists x, m = Ok x /\ k x = Ok y.
Proof.
  destruct m as [x | e]; simpl; intros E; [ | discriminate ].
  exists x; auto.
Qed.

Lemma bind_err_inv {X Y} (m : result X) (k : X -> result Y) (e : exn) :
  bind m k = Err e ->
  m = Err e \/ exists x, m = Ok x /\ k x = Err e.
Proof.
  destruct m as [x | e']; simpl; intros E.
  - right; exists x; auto.
  - left. inversion E; reflexivity.
Qed.

Lemma for_each_app {X S} (xs ys : list X) (acc : S) body :
  for_each (xs ++ ys) acc body =
  bind (for_each xs acc body) (fun a => for_each ys a body).
Proof.
  revert acc; induction xs as [ | x xs IH]; intros acc; simpl; [ reflexivity | ].
  destruct (body x acc) as [acc' | e]; simpl; auto.
Qed.

(** A loop whose body never raises is a left fold. *)
Lemma for_each_fold {X S} (step : S -> X -> S) (xs : list X) body :
  (forall x acc, In x xs -> body x acc = Ok (step acc x)) ->
  forall acc, for_each xs acc body = Ok (fold_left step xs acc).
Proof.
  induction xs as [ | x xs IH]; intros Hb acc; simpl; [ reflexivity | ].
  rewrite Hb by (left; reflexivity). simpl.
  apply IH. intros; apply Hb; right; assumption.
Qed.

(** Loop invariants: [Inv n] holds of the accumulator after [n] rounds. *)
Lemma for_each_invariant {X S} (Inv : nat -> S -> Prop)
      (xs : list X) body :
  (forall n x acc, nth_error xs n = Some x -> Inv n acc ->
                   exists acc', body x acc = Ok acc' /\ Inv (Datatypes.S n) acc') ->
  forall acc, Inv 0 acc ->
  exists acc', for_each xs acc body = Ok acc' /\ Inv (length xs) acc'.
Proof.
  revert Inv; induction xs as [ | x xs IH]; intros Inv Hstep acc H0; simpl.
  - exists acc; auto.
  - destruct (Hstep 0 x acc eq_refl H0) as (acc1 & E1 & H1).
    rewrite E1; simpl.
    apply (IH (fun n => Inv (Datatypes.S n))).
    + intros n y a Hn Ha. apply (Hstep (Datatypes.S n) y a); assumption.
    + assumption.
Qed.

Lemma comprehension_map {X Y} (f : X -> result Y) (g : X -> Y) xs :
  (forall x, In x xs -> f x = Ok (g x)) ->
  comprehension f xs = Ok (map g xs).
Proof.
  induction xs as [ | x xs IH]; intros Hf; simpl; [ reflexivity | ].
  rewrite Hf by (left; reflexivity); simpl.
  rewrite IH by (intros; apply Hf; right; assumption). reflexivity.
Qed.

Lemma nth_error_combine_seq {X} (xs : list X) s n i x :
  nth_error (combine (seq s (length xs)) xs) n = Some (i, x) ->
  i = s + n /\ nth_error xs n = Some x.
Proof.
  revert s n.
  induction xs as [ | y ys IH]; intros s n; simpl.
  - destruct n; discriminate.
  - destruct n as [ | n]; simpl.
    + intros E; inversion E; subst. split; [ lia | reflexivity ].
    + intros E. apply IH in E. destruct E as [Hi Hx].
      split; [ lia | assumption ].
Qed.

Lemma nth_error_enumerate {X} (xs : list X) n i x :
  nth_error (enumerate xs) n = Some (i, x) ->
  i = n /\ nth_error xs n = Some x.
Proof.
  intros E. apply nth_error_combine_seq in E. simpl in E. exact E.
Qed.

Lemma nth_error_range m n j :
  nth_error (range m) n = Some j -> j = n /\ n < m.
Proof.
  unfold range. intros E.
  assert (Hn : n < m).
  { assert (Hs : nth_error (seq 0 m) n <> None) by congruence.
    apply nth_error_Some in Hs. rewrite length_seq in Hs. exact Hs. }
  split; [ | exact Hn ].
  rewrite nth_error_nth' with (d := 0) in E by (rewrite length_seq; exact Hn).
  rewrite seq_nth in E by exact Hn. inversion E; reflexivity.
Qed.

Lemma enumerate_length {X} (xs : list X) :
  length (enumerate xs) = length xs.
Proof.
  unfold enumerate. rewrite length_combine, length_seq. apply Nat.min_id.
Qed.

(** ** [max] *)

Lemma fold_max_ge (xs : list nat) (a : nat) :
  a <= fold_left Nat.max xs a /\
  Forall (fun x => x <= fold_left Nat.max xs a) xs.
Proof.
  revert a; induction xs as [ | x xs IH]; intros a; simpl.
  - split; [ lia | constructor ].
  - destruct (IH (Nat.max a x)) as [Ha Hxs]. split; [ lia | ].
    constructor; [ lia | assumption ].
Qed.

Lemma max_ok (xs : list nat) :
  xs <> [] ->
  exists m, Py.max xs = Ok m /\ Forall (fun x => x <= m) xs.
Proof.
  destruct xs as [ | x xs]; [ congruence | intros _ ].
  simpl. eexists; split; [ reflexivity | ].
  destruct (fold_max_ge xs x) as [Hx Hxs].
  constructor; assumption.
Qed.

Lemma max_err (xs : list nat) (e : exn) :
  Py.max xs = Err e -> xs = [] /\ e = max_empty.
Proof.
  destruct xs; simpl; intros E; inversion E; auto.
Qed.

End PyFacts.

(** ** [sorted(..., reverse=True)] *)

Section SortedFacts.
Context {X : Type} (key : X -> nat).

Definition key_ge (a b : X) : Prop := key b <= key a.

Lemma insert_desc_perm (x : X) (l : list X) :
  Permutation (insert_desc key x l) (x :: l).
Proof.
  induction l as [ | y l IH]; simpl; [ reflexivity | ].
  destruct (key x <? key y); [ | reflexivity ].
  rewrite IH. apply perm_swap.
Qed.

Lemma sorted_desc_perm (l : list X) : Permutation (sorted_desc key l) l.
Proof.
  induction l as [ | x l IH]; simpl; [ reflexivity | ].
  rewrite insert_desc_perm. constructor. exact IH.
Qed.

Lemma sorted_desc_length (l : list X) :
  length (sorted_desc key l) = length l.
Proof. apply Permutation_length, sorted_desc_perm. Qed.

Lemma insert_desc_hd (x a : X) (l : list X) :
  key x <= key a -> HdRel key_ge a l -> HdRel key_ge a (insert_desc key x l).
Proof.
  intros Hx Hl. destruct l as [ | y l]; simpl.
  - constructor. exact Hx.
  - destruct (key x <? key y).
    + constructor. inversion Hl; assumption.
    + constructor. exact Hx.
Qed.

Lemma insert_desc_sorted (x : X) (l : list X) :
  Sorted key_ge l -> Sorted key_ge (insert_desc key x l).
Proof.
  induction l as [ | y l IH]; simpl; intros Hs.
  - repeat constructor.
  - inversion Hs as [ | ? ? Hl Hhd]; subst.
    destruct (Nat.ltb_spec (key x) (key y)) as [Hlt | Hge].
    + constructor; [ apply IH; assumption | ].
      apply insert_desc_hd; [ lia | assumption ].
    + constructor; [ assumption | ]. constructor. exact Hge.
Qed.

(** The result is in decreasing order of the key. *)
Lemma sorted_desc_sorted (l : list X) : Sorted key_ge (sorted_desc key l).
Proof.
  induction l as [ | x l IH]; simpl; [ constructor | ].
  apply insert_desc_sorted, IH.
Qed.

Lemma filter_insert_desc (c : nat) (x : X) (l : list X) :
  Sorted key_ge l ->
  filter (fun y => key y =? c) (insert_desc key x l) =
  filter (fun y => key y =? c) (x :: l).
Proof.
  induction l as [ | y l IH]; intros Hs; [ reflexivity | ].
  simpl insert_desc.
  destruct (Nat.ltb_spec (key x) (key y)) as [Hlt | Hge]; [ | reflexivity ].
  inversion Hs as [ | ? ? Hl Hhd]; subst.
  simpl. simpl in IH. rewrite (IH Hl).
  destruct (Nat.eqb_spec (key y) c) as [Hy | Hy];
    destruct (Nat.eqb_spec (key x) c) as [Hx | Hx]; try reflexivity.
  exfalso; lia.
Qed.

(** The sort is stable: elements with the same key keep their order. *)
Lemma sorted_desc_stable (c : nat) (l : list X) :
  filter (fun y => key y =? c) (sorted_desc key l) =
  filter (fun y => key y =? c) l.
Proof.
  induction l as [ | x l IH]; [ reflexivity | ].
  simpl sorted_desc. rewrite filter_insert_desc by apply sorted_desc_sorted.
  simpl. rewrite IH. reflexivity.
Qed.

End SortedFacts.

Lemma insert_desc_map {X Y} (f : X -> Y) (key : Y -> nat) (x : X) l :
  map f (insert_desc (fun a => key (f a)) x l) =
  insert_desc key (f x) (map f l).
Proof.
  induction l as [ | y l IH]; simpl; [ reflexivity | ].
  destruct (key (f x) <? key (f y)); simpl; [ rewrite IH | ]; reflexivity.
Qed.

(** Sorting indices by the key of the element they point to, and then
    looking the elements up, is sorting the elements. *)
Lemma sorted_desc_map {X Y} (f : X -> Y) (key : Y -> nat) (l : list X) :
  map f (sorted_desc (fun a => key (f a)) l) = sorted_desc key (map f l).
Proof.
  induction l as [ | x l IH]; simpl; [ reflexivity | ].
  rewrite insert_desc_map, IH. reflexivity.
Qed.

Lemma nth_error_combine_some {X Y} (l1 : list X) (l2 : list Y) n x y :
  nth_error l1 n = Some x -> nth_error l2 n = Some y ->
  nth_error (combine l1 l2) n = Some (x, y).
Proof.
  revert l2 n; induction l1 as [ | a l1 IH]; intros [ | b l2] [ | n];
    simpl; try discriminate.
  - intros E1 E2; inversion E1; inversion E2; reflexivity.
  - apply IH.
Qed.

Lemma map_nth_range {X} (d : X) (l : list X) :
  map (fun k => nth k l d) (range (length l)) = l.
Proof.
  unfold range. induction l as [ | x l IH]; simpl; [ reflexivity | ].
  f_equal. rewrite <- seq_shift, map_map. exact IH.
Qed.

(* ================================================================== *)
(** * [FullBiLSTM.create_packed_seq]                                   *)
(* ================================================================== *)

Section PaddingFacts.
Context {A : Type} `{Scalar A}.

Lemma getitem2_valid (t : tensor2 A) (idx : Z) :
  valid_index (rows2 t) idx = true ->
  exists v, getitem2 t idx = Ok v /\ size1 v = cols2 t.
Proof.
  unfold valid_index, getitem2. intros Hv.
  apply andb_true_iff in Hv. destruct Hv as [Hlo Hhi].
  destruct (Z.leb_spec 0 idx) as [Hpos | Hneg]; simpl.
  - rewrite Hhi. eexists; split; reflexivity.
  - rewrite Hlo. simpl.
    destruct (Z.ltb_spec idx 0) as [ | Hc]; [ | lia ].
    eexists; split; reflexivity.
Qed.

Lemma getitem2_err (t : tensor2 A) (idx : Z) (e : exn) :
  getitem2 t idx = Err e -> e = index_error.
Proof.
  unfold getitem2.
  destruct ((0 <=? idx) && (idx <? Z.of_nat (rows2 t)))%Z; [ discriminate | ].
  destruct ((- Z.of_nat (rows2 t) <=? idx) && (idx <? 0))%Z;
    [ discriminate | ].
  intros E; inversion E; reflexivity.
Qed.

Lemma setitem3_ok (t : tensor3 A) (i j : nat) (v : tensor1 A) :
  i < dim0 t -> j < dim1 t -> size1 v = dim2 t ->
  exists t', setitem3 t i j v = Ok t' /\
             dim0 t' = dim0 t /\ dim1 t' = dim1 t /\ dim2 t' = dim2 t /\
             (forall k, at3 t' i j k = at1 v k) /\
             (forall i' j' k, (i', j') <> (i, j) ->
                              at3 t' i' j' k = at3 t i' j' k).
Proof.
  intros Hi Hj Hv. unfold setitem3.
  apply Nat.ltb_lt in Hi, Hj. rewrite Hi, Hj. simpl.
  apply Nat.eqb_eq in Hv. rewrite Hv.
  eexists; split; [ reflexivity | ]. simpl.
  repeat split.
  - intros k. rewrite !Nat.eqb_refl. reflexivity.
  - intros i' j' k Hne.
    destruct (Nat.eqb_spec i' i) as [Ei | Ei];
      destruct (Nat.eqb_spec j' j) as [Ej | Ej]; simpl; try reflexivity.
    subst. congruence.
Qed.

Lemma setitem3_err (t : tensor3 A) (i j : nat) (v : tensor1 A) (e : exn) :
  setitem3 t i j v = Err e -> e = index_error \/ e = size_mismatch.
Proof.
  unfold setitem3.
  destruct ((i <? dim0 t) && (j <? dim1 t)).
  - destruct (size1 v =? dim2 t); [ discriminate | ].
    intros E; inversion E; auto.
  - intros E; inversion E; auto.
Qed.

Section Cells.
Variables (feats : tensor2 A) (seq_lens : list nat).
Variable lookup_table : list (list Z).

(** What the padded batch holds at row [i], position [j]. *)
Definition cell_spec (seqs : tensor3 A) (i j : nat) : Prop :=
  if j <? nth i seq_lens 0 then
    exists row idx v,
      nth_error lookup_table i = Some row /\
      nth_error row j = Some idx /\
      getitem2 feats idx = Ok v /\
      forall k, at3 seqs i j k = at1 v k
  else forall k, at3 seqs i j k = zero.

Lemma cell_spec_ext (s s' : tensor3 A) (i j : nat) :
  (forall k, at3 s' i j k = at3 s i j k) ->
  cell_spec s i j -> cell_spec s' i j.
Proof.
  unfold cell_spec. intros He.
  destruct (j <? nth i seq_lens 0).
  - intros (row & idx & v & Hr & Hi & Hg & Hk).
    exists row, idx, v. repeat split; try assumption.
    intros k. rewrite He. apply Hk.
  - intros Hk k. rewrite He. apply Hk.
Qed.

Hypothesis Hvalid : valid_lookup feats seq_lens lookup_table = true.

Lemma valid_lookup_row (i seq_len : nat) :
  nth_error seq_lens i = Some seq_len ->
  exists row, nth_error lookup_table i = Some row /\
              valid_row (rows2 feats) seq_len row = true.
Proof.
  intros Hi. unfold valid_lookup in Hvalid.
  apply andb_true_iff in Hvalid. destruct Hvalid as [Hlen Hall].
  apply Nat.eqb_eq in Hlen.
  assert (Hlt : i < length lookup_table).
  { rewrite Hlen. apply nth_error_Some. congruence. }
  destruct (nth_error lookup_table i) as [row | ] eqn:Hrow.
  2:{ apply nth_error_None in Hrow. lia. }
  exists row; split; [ reflexivity | ].
  rewrite forallb_forall in Hall.
  apply (Hall (seq_len, row)).
  apply nth_error_In with (n := i).
  apply nth_error_combine_some; assumption.
Qed.

Lemma valid_row_index (seq_len : nat) (row : list Z) (j : nat) :
  valid_row (rows2 feats) seq_len row = true -> j < seq_len ->
  exists idx, nth_error row j = Some idx /\
              valid_index (rows2 feats) idx = true.
Proof.
  unfold valid_row. intros Hv Hj.
  apply andb_true_iff in Hv. destruct Hv as [Hlen Hall].
  apply Nat.leb_le in Hlen.
  destruct (nth_error row j) as [idx | ] eqn:Hidx.
  2:{ apply nth_error_None in Hidx. lia. }
  exists idx; split; [ reflexivity | ].
  rewrite forallb_forall in Hall. apply Hall.
  apply nth_error_In with (n := j).
  rewrite nth_error_firstn.
  destruct (Nat.ltb_spec j seq_len); [ assumption | lia ].
Qed.

(** One round of the inner loop writes its cell and no other. *)
Lemma fill_position_ok (i seq_len j : nat) (seqs : tensor3 A) :
  nth_error seq_lens i = Some seq_len ->
  i < dim0 seqs -> j < dim1 seqs -> dim2 seqs = cols2 feats ->
  exists seqs',
    Model.fill_position feats lookup_table i seq_len j seqs = Ok seqs' /\
    dim0 seqs' = dim0 seqs /\ dim1 seqs' = dim1 seqs /\
    dim2 seqs' = dim2 seqs /\
    cell_spec seqs' i j /\
    (forall i' j' k, (i', j') <> (i, j) ->
                     at3 seqs' i' j' k = at3 seqs i' j' k).
Proof.
  intros Hlen Hi Hj Hd. unfold Model.fill_position.
  assert (Hnth : nth i seq_lens 0 = seq_len)
    by (apply nth_error_nth; assumption).
  destruct (Nat.ltb_spec j seq_len) as [Hlt | Hge].
  - destruct (valid_lookup_row i Hlen) as (row & Hrow & Hvr).
    destruct (valid_row_index row Hvr Hlt) as (idx & Hidx & Hvi).
    destruct (getitem2_valid feats idx Hvi) as (v & Hv & Hsz).
    unfold Py.getitem. rewrite Hrow. simpl. rewrite Hidx. simpl.
    rewrite Hv. simpl.
    destruct (@setitem3_ok seqs i j v Hi Hj) as (s' & Es & D0 & D1 & D2 & Hw & Ho).
    { congruence. }
    exists s'. repeat split; try assumption.
    unfold cell_spec. rewrite Hnth.
    destruct (Nat.ltb_spec j seq_len); [ | lia ].
    exists row, idx, v. auto.
  - destruct (@setitem3_ok seqs i j (zeros1 (cols2 feats)) Hi Hj)
      as (s' & Es & D0 & D1 & D2 & Hw & Ho).
    { simpl. congruence. }
    exists s'. repeat split; try assumption.
    unfold cell_spec. rewrite Hnth.
    destruct (Nat.ltb_spec j seq_len); [ lia | ].
    intros k. rewrite Hw. reflexivity.
Qed.

(** The state of the padded batch after the rows before [i] and the
    positions before [j] of row [i] have been written. *)
Definition filled (b m : nat) (i j : nat) (seqs : tensor3 A) : Prop :=
  dim0 seqs = b /\ dim1 seqs = m /\ dim2 seqs = cols2 feats /\
  forall i' j', (i' < i \/ (i' = i /\ j' < j)) -> i' < b -> j' < m ->
                cell_spec seqs i' j'.

Lemma fill_row_ok (m i seq_len : nat) (seqs : tensor3 A) :
  nth_error seq_lens i = Some seq_len ->
  filled (length seq_lens) m i 0 seqs ->
  exists seqs',
    for_each (range m) seqs
             (Model.fill_position feats lookup_table i seq_len) = Ok seqs' /\
    filled (length seq_lens) m (S i) 0 seqs'.
Proof.
  intros Hlen Hf.
  assert (Hi : i < length seq_lens) by (apply nth_error_Some; congruence).
  destruct (@for_each_invariant _ _
              (fun n s => filled (length seq_lens) m i n s)
              (range m)
              (Model.fill_position feats lookup_table i seq_len))
    with (acc := seqs) as (s' & Es & Hs').
  - intros n j acc Hn (D0 & D1 & D2 & Hc).
    apply nth_error_range in Hn. destruct Hn as [-> Hn].
    destruct (@fill_position_ok i seq_len n acc Hlen)
      as (a' & Ea & E0 & E1 & E2 & Hcell & Hother); try lia.
    exists a'. split; [ exact Ea | ].
    repeat split; try congruence.
    intros i' j' Hdone Hi' Hj'.
    destruct (Nat.eq_dec i' i) as [-> | Hne].
    + destruct (Nat.eq_dec j' n) as [-> | Hnj]; [ exact Hcell | ].
      apply cell_spec_ext with (s := acc).
      * intros k. apply Hother. congruence.
      * apply Hc; try assumption. right. split; [ reflexivity | lia ].
    + apply cell_spec_ext with (s := acc).
      * intros k. apply Hother. congruence.
      * apply Hc; try assumption. left. lia.
  - exact Hf.
  - exists s'. split; [ exact Es | ].
    unfold range in Hs'. rewrite length_seq in Hs'.
    destruct Hs' as (D0 & D1 & D2 & Hc).
    repeat split; try assumption.
    intros i' j' Hdone Hi' Hj'. apply Hc; try assumption.
    destruct Hdone as [Hlt | [_ Hlt]]; [ | lia ].
    destruct (Nat.eq_dec i' i) as [-> | Hne]; [ right | left ]; lia.
Qed.

Lemma fill_padded_ok (m : nat) (seqs : tensor3 A) :
  Py.max seq_lens = Ok m ->
  filled (length seq_lens) m 0 0 seqs ->
  exists seqs',
    Model.fill_padded feats seq_lens lookup_table seqs = Ok seqs' /\
    filled (length seq_lens) m (length seq_lens) 0 seqs'.
Proof.
  intros Hm Hf. unfold Model.fill_padded.
  destruct (@for_each_invariant _ _
              (fun n s => filled (length seq_lens) m n 0 s)
              (enumerate seq_lens)
              (fun '(i, seq_len) seqs =>
                 m <- Py.max seq_lens ;;
                 for_each (range m) seqs
                          (Model.fill_position feats lookup_table i seq_len)))
    with (acc := seqs) as (s' & Es & Hs').
  - intros n [i seq_len] acc Hn Hacc.
    apply nth_error_enumerate in Hn. destruct Hn as [-> Hn].
    rewrite Hm. simpl. apply fill_row_ok; assumption.
  - exact Hf.
  - exists s'. split; [ exact Es | ].
    rewrite enumerate_length in Hs'. exact Hs'.
Qed.

(** The padded batch: its shape and its content. *)
Lemma padded_seqs_ok :
  seq_lens <> [] ->
  exists m seqs,
    Py.max seq_lens = Ok m /\
    Forall (fun l => l <= m) seq_lens /\
    Model.padded_seqs feats seq_lens lookup_table = Ok seqs /\
    dim0 seqs = length seq_lens /\ dim1 seqs = m /\
    dim2 seqs = cols2 feats /\
    forall i j, i < length seq_lens -> j < m -> cell_spec seqs i j.
Proof.
  intros Hne. destruct (max_ok Hne) as (m & Hm & Hle).
  unfold Model.padded_seqs. rewrite Hm. simpl.
  destruct (@fill_padded_ok m (zeros3 (length seq_lens) m (cols2 feats)) Hm)
    as (s' & Es & D0 & D1 & D2 & Hc).
  { repeat split; try reflexivity. intros i' j' [Hlt | [_ Hlt]]; lia. }
  exists m, s'. repeat split; try assumption.
  intros i j Hi Hj. apply Hc; try assumption. left; exact Hi.
Qed.

End Cells.

End PaddingFacts.

Section OrderFacts.

(** The order in which [create_packed_seq] lists the rows. *)
Lemma length_order_perm (seq_lens : list nat) :
  Permutation (Model.length_order seq_lens) (range (length seq_lens)).
Proof. apply sorted_desc_perm. Qed.

Lemma length_order_length (seq_lens : list nat) :
  length (Model.length_order seq_lens) = length seq_lens.
Proof.
  unfold Model.length_order. rewrite sorted_desc_length.
  apply length_seq.
Qed.

Lemma length_order_bound (seq_lens : list nat) (p : nat) :
  In p (Model.length_order seq_lens) -> p < length seq_lens.
Proof.
  intros Hin.
  apply (Permutation_in _ (length_order_perm seq_lens)) in Hin.
  apply in_seq in Hin. lia.
Qed.

(** The sorted lengths are the lengths of the reordered rows. *)
Lemma length_order_lengths (seq_lens : list nat) :
  map (fun k => nth k seq_lens 0) (Model.length_order seq_lens) =
  sorted_desc (fun l => l) seq_lens.
Proof.
  unfold Model.length_order.
  rewrite (sorted_desc_map (fun k => nth k seq_lens 0) (fun l => l)).
  rewrite map_nth_range. reflexivity.
Qed.

Lemma sorted_lengths_bound (seq_lens : list nat) (m : nat) :
  Forall (fun l => l <= m) seq_lens ->
  hd 0 (sorted_desc (fun l => l) seq_lens) <= m.
Proof.
  intros Hle.
  assert (Hs : Forall (fun l => l <= m) (sorted_desc (fun l => l) seq_lens)).
  { rewrite Forall_forall in *. intros l Hin. apply Hle.
    apply (Permutation_in _ (sorted_desc_perm (fun l => l) seq_lens)).
    exact Hin. }
  destruct (sorted_desc (fun l => l) seq_lens); simpl; [ lia | ].
  inversion Hs; assumption.
Qed.

Lemma sorted_lengths_positive (seq_lens : list nat) :
  all_positive seq_lens = true ->
  all_positive (sorted_desc (fun l => l) seq_lens) = true.
Proof.
  unfold all_positive. rewrite !forallb_forall. intros Hp l Hin.
  apply Hp.
  apply (Permutation_in _ (sorted_desc_perm (fun l => l) seq_lens)).
  exact Hin.
Qed.

Lemma nonempty_spec {X} (l : list X) : nonempty l = true <-> l <> [].
Proof. destruct l; simpl; split; congruence. Qed.

End OrderFacts.

Section CreatePackedSeq.
Context {A : Type} `{Scalar A} `{Packing A} `{Random A} `{Vision A}.
Context `{!Recurrent A}.

(** The rows of [seqs] in the order [order]. *)
Definition reordered (seqs : tensor3 A) (order : list nat) : tensor3 A :=
  T3 (length order) (dim1 seqs) (dim2 seqs)
     (fun r => at3 seqs (nth r order 0)).

(** The batch handed to [pack_padded_sequence]: batch-major when
    [batch_first] holds, time-major otherwise. *)
Definition laid_out (batch_first : bool) (t : tensor3 A) : tensor3 A :=
  if batch_first then t else permute102 t.

Lemma index_select3_order (seqs : tensor3 A) (seq_lens : list nat) :
  dim0 seqs = length seq_lens ->
  index_select3 seqs (Model.length_order seq_lens) =
  Ok (reordered seqs (Model.length_order seq_lens)).
Proof.
  intros Hd. unfold index_select3.
  replace (forallb (fun p => p <? dim0 seqs) (Model.length_order seq_lens))
    with true; [ reflexivity | ].
  symmetry. apply forallb_forall. intros p Hin.
  apply Nat.ltb_lt. rewrite Hd. apply length_order_bound. exact Hin.
Qed.

(** The function, once its own loops and index operations are known to
    succeed, is one call of the library on the reordered padded batch. *)
Lemma create_packed_seq_unfold (self : Model.FullBiLSTM) feats seq_lens
      lookup_table seqs :
  Model.padded_seqs feats seq_lens lookup_table = Ok seqs ->
  dim0 seqs = length seq_lens ->
  Model.create_packed_seq self feats seq_lens lookup_table =
  pack_padded_sequence
    (laid_out (Model.batch_first self)
              (reordered seqs (Model.length_order seq_lens)))
    (sorted_desc (fun l => l) seq_lens) (Model.batch_first self).
Proof.
  intros Hp Hd. unfold Model.create_packed_seq.
  rewrite Hp. simpl. rewrite (@index_select3_order seqs seq_lens Hd). simpl.
  unfold laid_out. destruct (Model.batch_first self); reflexivity.
Qed.

(** C3: [create_packed_seq] pads, reorders and packs.  For arguments whose
    lookups are in range, the padded batch has one row per sequence and
    [max(seq_lens)] positions; at row [i] and position [j] it holds
    [feats[lookup_table[i][j]]] when [j < seq_lens[i]] and the zero vector
    otherwise.  The rows are then listed in decreasing order of their
    length (rows of equal length keep their order), the lengths are sorted
    the same way, and the result is the library's packing of that batch,
    transposed to time-major first when [batch_first] is false. *)
Theorem create_packed_seq_pads_and_packs
        (self : Model.FullBiLSTM) (feats : tensor2 A)
        (seq_lens : list nat) (lookup_table : list (list Z)) :
  nonempty seq_lens = true ->
  valid_lookup feats seq_lens lookup_table = true ->
  exists (m : nat) (seqs : tensor3 A),
    let order := Model.length_order seq_lens in
    let ordered_seq_lens := sorted_desc (fun l => l) seq_lens in
    Py.max seq_lens = Ok m /\
    Model.padded_seqs feats seq_lens lookup_table = Ok seqs /\
    (dim0 seqs = length seq_lens /\ dim1 seqs = m /\
     dim2 seqs = cols2 feats) /\
    (forall i j, i < length seq_lens -> j < m ->
                 cell_spec feats seq_lens lookup_table seqs i j) /\
    Permutation order (range (length seq_lens)) /\
    Sorted ge ordered_seq_lens /\
    ordered_seq_lens = map (fun k => nth k seq_lens 0) order /\
    (forall c, filter (fun k => nth k seq_lens 0 =? c) order =
               filter (fun k => nth k seq_lens 0 =? c)
                      (range (length seq_lens))) /\
    Model.create_packed_seq self feats seq_lens lookup_table =
    pack_padded_sequence
      (laid_out (Model.batch_first self) (reordered seqs order))
      ordered_seq_lens (Model.batch_first self).
Proof.
  intros Hne Hvalid. apply nonempty_spec in Hne.
  destruct (@padded_seqs_ok _ _ feats seq_lens lookup_table Hvalid Hne)
    as (m & seqs & Hm & Hle & Hp & D0 & D1 & D2 & Hcells).
  exists m, seqs. cbv zeta.
  split; [ exact Hm | ].
  split; [ exact Hp | ].
  split; [ auto | ].
  split; [ exact Hcells | ].
  split; [ apply length_order_perm | ].
  split; [ apply (sorted_desc_sorted (fun l => l)) | ].
  split; [ symmetry; apply length_order_lengths | ].
  split; [ intros c; apply (sorted_desc_stable (fun k => nth k seq_lens 0)) | ].
  apply create_packed_seq_unfold; assumption.
Qed.

(** What the library promises of [pack_padded_sequence]: a batch whose
    lengths are positive, in decreasing order, one per row and no longer
    than the padded rows, is packed. *)
Definition pack_accepts : Prop :=
  forall (x : tensor3 A) (lens : list nat) (batch_first : bool),
    nonempty lens = true -> all_positive lens = true -> Sorted ge lens ->
    length lens = dim0 (laid_out batch_first x) ->
    hd 0 lens <= dim1 (laid_out batch_first x) ->
    exists p, pack_padded_sequence x lens batch_first = Ok p.

Lemma laid_out_twice (b : bool) (t : tensor3 A) :
  dim0 (laid_out b (laid_out b t)) = dim0 t /\
  dim1 (laid_out b (laid_out b t)) = dim1 t.
Proof. destruct b; simpl; auto. Qed.

(** C10: under the stated precondition every index that
    [create_packed_seq] evaluates is in bounds and [max(seq_lens)] is
    defined: the padded batch is built, the reordering succeeds, and the
    function is the library call on their result.  With a library that
    keeps its promise, the function returns. *)
Theorem create_packed_seq_in_bounds
        (self : Model.FullBiLSTM) (feats : tensor2 A)
        (seq_lens : list nat) (lookup_table : list (list Z)) :
  nonempty seq_lens = true ->
  all_positive seq_lens = true ->
  valid_lookup feats seq_lens lookup_table = true ->
  (exists m seqs seqs',
      Py.max seq_lens = Ok m /\
      Model.padded_seqs feats seq_lens lookup_table = Ok seqs /\
      index_select3 seqs (Model.length_order seq_lens) = Ok seqs' /\
      Model.create_packed_seq self feats seq_lens lookup_table =
      pack_padded_sequence
        (laid_out (Model.batch_first self) seqs')
        (sorted_desc (fun l => l) seq_lens) (Model.batch_first self)) /\
  (pack_accepts ->
   exists p,
     Model.create_packed_seq self feats seq_lens lookup_table = Ok p).
Proof.
  intros Hne Hpos Hvalid.
  assert (Hne' : seq_lens <> []) by (apply nonempty_spec; exact Hne).
  destruct (@padded_seqs_ok _ _ feats seq_lens lookup_table Hvalid Hne')
    as (m & seqs & Hm & Hle & Hp & D0 & D1 & D2 & Hcells).
  pose proof (@create_packed_seq_unfold self feats seq_lens lookup_table seqs Hp D0) as Hc.
  split.
  - exists m, seqs, (reordered seqs (Model.length_order seq_lens)).
    repeat split; try assumption.
    apply (@index_select3_order seqs seq_lens D0).
  - intros Hpack. rewrite Hc.
    set (b := Model.batch_first self).
    set (r := reordered seqs (Model.length_order seq_lens)).
    destruct (laid_out_twice b r) as [L0 L1].
    apply Hpack.
    + apply nonempty_spec. intros E.
      apply (f_equal (@length nat)) in E.
      rewrite sorted_desc_length in E. destruct seq_lens; [ congruence | discriminate ].
    + apply sorted_lengths_positive; exact Hpos.
    + apply (sorted_desc_sorted (fun l => l)).
    + rewrite L0. unfold r; simpl.
      rewrite sorted_desc_length, length_order_length. reflexivity.
    + rewrite L1. unfold r; simpl. rewrite D1.
      apply sorted_lengths_bound; exact Hle.
Qed.

End CreatePackedSeq.

(* ================================================================== *)
(** * [LSTMLosses.forward]                                             *)
(* ================================================================== *)

Lemma fold_left_over_map {X Y S} (f : S -> Y -> S) (g : X -> Y) l a :
  fold_left f (map g l) a = fold_left (fun acc x => f acc (g x)) l a.
Proof.
  revert a; induction l as [ | x l IH]; intros a; simpl;
    [ reflexivity | apply IH ].
Qed.

Section SumFacts.
Context {A : Type} `{Scalar A}.

Lemma sum_n_S (n : nat) (f : nat -> A) :
  sum_n (S n) f = add (sum_n n f) (f n).
Proof.
  unfold sum_n. rewrite seq_S, fold_left_app. reflexivity.
Qed.

Lemma sum_n_ext (n : nat) (f g : nat -> A) :
  (forall k, k < n -> f k = g k) -> sum_n n f = sum_n n g.
Proof.
  induction n as [ | n IH]; intros Hfg; [ reflexivity | ].
  rewrite !sum_n_S, IH, Hfg by auto. reflexivity.
Qed.

(** Two running sums kept in one accumulator. *)
Lemma fold_left_pair (f g : nat -> A) (l : list nat) (a b : A) :
  fold_left (fun (acc : A * A) k => (add (fst acc) (f k), add (snd acc) (g k)))
            l (a, b) =
  (fold_left (fun acc k => add acc (f k)) l a,
   fold_left (fun acc k => add acc (g k)) l b).
Proof.
  revert a b; induction l as [ | k l IH]; intros a b; simpl;
    [ reflexivity | apply IH ].
Qed.

Lemma sum1_list (l : list A) :
  sum1 (T1 (length l) (fun k => nth k l zero)) =
  fold_left add l zero.
Proof.
  unfold sum1, sum_n. simpl.
  rewrite <- (map_nth_range zero l) at 2.
  rewrite fold_left_over_map. reflexivity.
Qed.

Lemma cat_elems_sum (l : list A) :
  l <> [] ->
  (c <- cat_elems l ;; ret (sum1 c)) = Ok (fold_left add l zero).
Proof.
  intros Hne. pose proof (sum1_list l) as Hs.
  destruct l as [ | x l]; [ congruence | ].
  unfold cat_elems, bind, ret. rewrite Hs. reflexivity.
Qed.

(** The sum of all entries of a matrix with a single row. *)
Lemma sum2_row (n : nat) (g : nat -> nat -> A) :
  sum2 (T2 1 n g) = sum_n n (g 0).
Proof.
  unfold sum2. simpl. rewrite Nat.add_0_r.
  apply sum_n_ext. intros k Hk.
  rewrite Nat.div_small, Nat.mod_small by exact Hk. reflexivity.
Qed.

End SumFacts.

Section LikelihoodFacts.
Context {A : Type} `{Scalar A} `{Packing A}.

(** The value of the normalising sum for the row [j] of [seq_hiddens]. *)
Definition denom_value (feats : tensor3 A) (b : nat)
           (seq_hiddens : tensor2 A) (j : nat) : A :=
  sum_n b (fun k =>
    sum_n (dim1 feats) (fun p =>
      exp (sum_n (cols2 seq_hiddens)
                 (fun d => mul (at2 seq_hiddens j d) (at3 feats k p d))))).

Lemma denom_term_ok (feats : tensor3 A) (seq_hiddens : tensor2 A)
      (j k : nat) :
  j < rows2 seq_hiddens -> k < dim0 feats ->
  cols2 seq_hiddens = dim2 feats ->
  (hj <- row2 seq_hiddens j ;;
   fk <- getitem3 feats k ;;
   p <- mm (unsqueeze0 hj) (permute10 fk) ;;
   ret (sum2 (map2 exp p))) =
  Ok (sum_n (dim1 feats) (fun p =>
        exp (sum_n (cols2 seq_hiddens)
                   (fun d => mul (at2 seq_hiddens j d) (at3 feats k p d))))).
Proof.
  intros Hj Hk Hc. unfold row2, getitem3.
  apply Nat.ltb_lt in Hj, Hk. rewrite Hj, Hk. simpl.
  unfold mm. simpl. apply Nat.eqb_eq in Hc. rewrite Hc. simpl.
  unfold ret, map2. simpl. rewrite sum2_row. reflexivity.
Qed.

Lemma denom_ok (feats : tensor3 A) (seq_lens : list nat)
      (seq_hiddens : tensor2 A) (j : nat) :
  nonempty seq_lens = true ->
  j < rows2 seq_hiddens -> length seq_lens <= dim0 feats ->
  cols2 seq_hiddens = dim2 feats ->
  Losses.LSTMLosses.denom feats seq_lens seq_hiddens j =
  Ok (denom_value feats (length seq_lens) seq_hiddens j).
Proof.
  intros Hne Hj Hb Hc. unfold Losses.LSTMLosses.denom.
  rewrite comprehension_map with
    (g := fun k => sum_n (dim1 feats) (fun p =>
            exp (sum_n (cols2 seq_hiddens)
                       (fun d => mul (at2 seq_hiddens j d)
                                     (at3 feats k p d))))).
  2:{ intros k Hin. apply in_seq in Hin.
      apply denom_term_ok; [ assumption | lia | assumption ]. }
  rewrite bind_Ok, cat_elems_sum.
  - unfold denom_value, sum_n, range. rewrite fold_left_over_map.
    reflexivity.
  - intros E. apply (f_equal (@length A)) in E. rewrite length_map in E.
    unfold range in E. rewrite length_seq in E.
    destruct seq_lens; discriminate.
Qed.

End LikelihoodFacts.

Section LikelihoodSteps.
Context {A : Type} `{Scalar A} `{Packing A}.

(** One timestep, for any features and hidden states of fitting shapes. *)
Lemma timestep_ok (feats : tensor3 A) (seq_lens : list nat)
      (fsf fsh bsf bsh : tensor2 A) (j : nat) (fs bs : A) :
  nonempty seq_lens = true -> length seq_lens <= dim0 feats ->
  j < rows2 fsh -> j < rows2 bsh -> j + 1 < rows2 fsf -> j < rows2 bsf ->
  cols2 fsh = dim2 feats -> cols2 bsh = dim2 feats ->
  cols2 fsf = dim2 feats -> cols2 bsf = dim2 feats ->
  Losses.LSTMLosses.timestep feats seq_lens fsf fsh bsf bsh j (fs, bs) =
  Ok (add fs (div (exp (sum_n (dim2 feats)
                         (fun d => mul (at2 fsh j d) (at2 fsf (j + 1) d))))
                  (denom_value feats (length seq_lens) fsh j)),
      add bs (div (exp (sum_n (dim2 feats)
                         (fun d => mul (at2 bsh j d) (at2 bsf j d))))
                  (denom_value feats (length seq_lens) bsh j))).
Proof.
  intros Hne Hb Hfh Hbh Hff Hbf Cfh Cbh Cff Cbf.
  unfold Losses.LSTMLosses.timestep.
  rewrite !denom_ok by assumption.
  unfold row2.
  apply Nat.ltb_lt in Hfh, Hbh, Hff, Hbf. rewrite Hfh, Hbh, Hff, Hbf.
  unfold dot. simpl. rewrite Cfh, Cbh, Cff, Cbf, Nat.eqb_refl.
  reflexivity.
Qed.

End LikelihoodSteps.

Section LikelihoodForward.
Context {A : Type} `{Scalar A} `{Packing A}.

Variables (feats hidden : tensor3 A) (seq_lens : list nat).
Hypothesis Hshapes : lstm_shapes feats hidden seq_lens = true.

Lemma lstm_shapes_inv :
  length seq_lens <= dim0 feats /\ length seq_lens <= dim0 hidden /\
  (forall i, i < length seq_lens ->
             nth i seq_lens 0 <= dim1 feats /\
             nth i seq_lens 0 <= dim1 hidden) /\
  dim2 hidden = 2 * dim2 feats.
Proof.
  unfold lstm_shapes in Hshapes.
  repeat (apply andb_true_iff in Hshapes;
          let H' := fresh "Hs" in destruct Hshapes as [Hshapes H']).
  apply Nat.leb_le in Hshapes, Hs1. apply Nat.eqb_eq in Hs.
  repeat split; try assumption.
  - rewrite forallb_forall in Hs0.
    assert (Hin : In (nth i seq_lens 0) seq_lens) by (apply nth_In; assumption).
    apply Hs0 in Hin. apply andb_true_iff in Hin.
    destruct Hin as [Hin _]. apply Nat.leb_le in Hin. exact Hin.
  - rewrite forallb_forall in Hs0.
    assert (Hin : In (nth i seq_lens 0) seq_lens) by (apply nth_In; assumption).
    apply Hs0 in Hin. apply andb_true_iff in Hin.
    destruct Hin as [_ Hin]. apply Nat.leb_le in Hin. exact Hin.
Qed.

Lemma half_hidden : dim2 hidden / 2 = dim2 feats.
Proof.
  destruct lstm_shapes_inv as (_ & _ & _ & Hd). rewrite Hd.
  rewrite Nat.mul_comm. apply Nat.div_mul. discriminate.
Qed.

(** One round of the loop over the sequences. *)
Lemma sequence_loss_ok (i : nat) (fw bw : A) :
  i < length seq_lens ->
  Losses.LSTMLosses.sequence_loss feats hidden seq_lens i
                                  (nth i seq_lens 0) (fw, bw) =
  Ok (add fw (Formulas.seq_nll seq_lens
                (Formulas.fw_prob feats hidden seq_lens) i),
      add bw (Formulas.seq_nll seq_lens
                (Formulas.bw_prob feats hidden seq_lens) i)).
Proof.
  intros Hi.
  destruct lstm_shapes_inv as (B0 & B1 & Hlen & Hd).
  destruct (Hlen i Hi) as [L0 L1].
  pose proof half_hidden as Hhalf.
  assert (Hne : nonempty seq_lens = true)
    by (destruct seq_lens; [ simpl in Hi; lia | reflexivity ]).
  set (seq_len := nth i seq_lens 0) in *.
  unfold Losses.LSTMLosses.sequence_loss, select_slice3.
  assert (Ef : (i <? dim0 feats) = true) by (apply Nat.ltb_lt; lia).
  assert (Eh : (i <? dim0 hidden) = true) by (apply Nat.ltb_lt; lia).
  rewrite Ef, Eh. rewrite !bind_Ok.
  unfold cat2. cbn [cols2 rows2 zeros2].
  rewrite Hhalf.
  rewrite Nat.min_id, Nat.min_0_l, Nat.sub_0_r, Nat.eqb_refl.
  rewrite !bind_Ok.
  rewrite (Nat.min_l seq_len (dim1 feats)) by exact L0.
  rewrite (Nat.min_l seq_len (dim1 hidden)) by exact L1.
  rewrite (Nat.min_l (dim2 feats) (dim2 hidden)) by lia.
  rewrite Nat.min_id.
  cbn [cols2 rows2 zeros2]. rewrite Nat.eqb_refl, !bind_Ok.
  rewrite for_each_fold with
    (step := fun (acc : A * A) j =>
               (add (fst acc) (Formulas.fw_prob feats hidden seq_lens i j),
                add (snd acc) (Formulas.bw_prob feats hidden seq_lens i j))).
  - rewrite bind_Ok. unfold range. rewrite fold_left_pair.
    unfold ret, Formulas.seq_nll, sum_n. reflexivity.
  - intros j [fs bs] Hin. apply in_seq in Hin.
    rewrite timestep_ok; cbn [rows2 cols2 at2 fst snd];
      try assumption; try lia.
    cbn [Nat.min zeros2 at2].
    f_equal. f_equal; f_equal; f_equal.
    + unfold Formulas.fw_prob, denom_value, Formulas.normaliser,
        Formulas.dotp, Formulas.h_fw, Formulas.x_stop.
      cbn [cols2 at2]. rewrite Nat.sub_0_r. fold seq_len. reflexivity.
    + unfold Formulas.bw_prob, denom_value, Formulas.normaliser,
        Formulas.dotp, Formulas.h_bw, Formulas.x_start.
      cbn [cols2 at2]. rewrite Hhalf.
      replace (dim2 hidden - dim2 feats) with (dim2 feats) by lia.
      destruct j as [ | j]; reflexivity.
Qed.

End LikelihoodForward.

Section LikelihoodTheorem.
Context {A : Type} `{Scalar A} `{Packing A}.

Lemma enumerate_as_range (seq_lens : list nat) :
  enumerate seq_lens =
  map (fun i => (i, nth i seq_lens 0)) (range (length seq_lens)).
Proof.
  unfold enumerate, range.
  rewrite <- (map_nth_range 0 seq_lens) at 2.
  unfold range. generalize (seq 0 (length seq_lens)) as l.
  induction l as [ | k l IH]; simpl; [ reflexivity | ].
  rewrite IH. reflexivity.
Qed.

Lemma for_each_map {X Y S} (f : X -> Y) (xs : list X) (acc : S) body :
  for_each (map f xs) acc body = for_each xs acc (fun x => body (f x)).
Proof.
  revert acc; induction xs as [ | x xs IH]; intros acc; simpl;
    [ reflexivity | ].
  destruct (body (f x) acc); simpl; auto.
Qed.

(** The loop over the sequences, for features and lengths of fitting
    shapes. *)
Lemma sequences_loop_ok (feats hidden : tensor3 A) (seq_lens : list nat) :
  lstm_shapes feats hidden seq_lens = true ->
  for_each (enumerate seq_lens) (zero, zero)
           (fun '(i, seq_len) acc =>
              Losses.LSTMLosses.sequence_loss feats hidden seq_lens i seq_len
                                              acc) =
  Ok (sum_n (length seq_lens)
            (Formulas.seq_nll seq_lens
               (Formulas.fw_prob feats hidden seq_lens)),
      sum_n (length seq_lens)
            (Formulas.seq_nll seq_lens
               (Formulas.bw_prob feats hidden seq_lens))).
Proof.
  intros Hshapes.
  rewrite enumerate_as_range, for_each_map.
  rewrite for_each_fold with
    (step := fun (acc : A * A) i =>
       (add (fst acc)
            (Formulas.seq_nll seq_lens
               (Formulas.fw_prob feats hidden seq_lens) i),
        add (snd acc)
            (Formulas.seq_nll seq_lens
               (Formulas.bw_prob feats hidden seq_lens) i))).
  - unfold range. rewrite fold_left_pair. reflexivity.
  - intros i [fw bw] Hin. apply in_seq in Hin.
    apply sequence_loss_ok; [ exact Hshapes | lia ].
Qed.


End LikelihoodTheorem.

(** ** The normalising sum and the padding *)

Section PaddingInDenominator.
Context {A : Type} `{Scalar A} `{!ScalarLaws A} `{Packing A}.


(** The positions after the end of each sequence hold zero vectors. *)
Definition zero_padded (feats : tensor3 A) (seq_lens : list nat) : Prop :=
  forall k p d,
    k < length seq_lens -> nth k seq_lens 0 <= p < dim1 feats ->
    d < dim2 feats -> at3 feats k p d = zero.





End PaddingInDenominator.

(* ================================================================== *)
(** * [ContrastiveLoss.forward] and [SBContrastiveLoss.forward]        *)
(* ================================================================== *)

Section ContrastiveFacts.
Context {A : Type} `{Scalar A} `{Distance A}.

Lemma broadcast1_same (op : A -> A -> A) (u v : tensor1 A) :
  size1 u = size1 v ->
  broadcast1 op u v =
  Ok (T1 (size1 u) (fun k => op (at1 u k) (at1 v k))).
Proof.
  intros E. unfold broadcast1. apply Nat.eqb_eq in E. rewrite E.
  reflexivity.
Qed.

(** C4: [ContrastiveLoss.forward] returns
    [mean((1 - label) * d^2 + label * max(0, margin - d)^2)], where [d]
    holds the distances that [F.pairwise_distance] computes for the two
    batches and [label] has one entry for each of them. *)
Theorem ContrastiveLoss_forward_formula
        (self : Losses.ContrastiveLoss.t A) (output1 output2 : tensor2 A)
        (label d : tensor1 A) :
  pairwise_distance output1 output2 = Ok d ->
  size1 label = size1 d ->
  Losses.ContrastiveLoss.forward self output1 output2 label =
  Ok (Formulas.contrastive (Losses.ContrastiveLoss.margin self)
                           (size1 d) (at1 label) (at1 d)).
Proof.
  intros Hd Hl. unfold Losses.ContrastiveLoss.forward.
  rewrite Hd, bind_Ok.
  rewrite broadcast1_same by exact Hl. rewrite bind_Ok.
  rewrite broadcast1_same by exact Hl. rewrite bind_Ok.
  rewrite broadcast1_same by reflexivity. rewrite bind_Ok.
  unfold ret, mean1, sum1. cbn [size1 at1 map1]. rewrite Hl.
  reflexivity.
Qed.

End ContrastiveFacts.

(* ================================================================== *)
(** * The functions at concrete arguments, over the real numbers       *)
(* ================================================================== *)

Module RealFacts.

Import Reference.

#[export] Instance R_ScalarLaws : ScalarLaws R.
Proof.
  split; simpl.
  - intros x. apply Rmult_0_r.
  - apply Rplus_0_l.
  - apply exp_0.
Qed.

(** Two descriptors per branch, all of them zero, and two zero labels. *)
Definition zero_descs : tensor2 R := zeros2 2 1.
Definition zero_labels : tensor1 R := zeros1 2.

Lemma zero_descs_distance (i k : nat) :
  row_distance zero_descs zero_descs i k = 0%R.
Proof.
  unfold row_distance, sum_n. simpl.
  replace (0 + (0 - 0) * ((0 - 0) * 1))%R with 0%R by ring.
  apply sqrt_0.
Qed.

(** C1: [SBContrastiveLoss.forward] does not compute the loss its
    docstring gives.  On two batches of two zero descriptors with zero
    labels and margin 2 it returns 0, whereas
    [sum_f(sum_k(max(0, m - d(f, v) + d(f, v_k)))) +
     sum_v(sum_k(max(0, m - d(v, f) + d(v, f_k))))] is 8: each of the
    four pairs of a descriptor and a non-matching one contributes the
    margin. *)
Theorem SBContrastiveLoss_differs_from_docstring :
  Losses.SBContrastiveLoss.forward
    {| Losses.SBContrastiveLoss.margin := 2%R |}
    zero_descs zero_descs zero_labels = Ok 0%R /\
  Formulas.sb_contrastive 2%R 2
    (row_distance zero_descs zero_descs)
    (row_distance zero_descs zero_descs) = 8%R /\
  Losses.SBContrastiveLoss.forward
    {| Losses.SBContrastiveLoss.margin := 2%R |}
    zero_descs zero_descs zero_labels <>
  Ok (Formulas.sb_contrastive 2%R 2
        (row_distance zero_descs zero_descs)
        (row_distance zero_descs zero_descs)).
Proof.
  assert (Hcode : Losses.SBContrastiveLoss.forward
                    {| Losses.SBContrastiveLoss.margin := 2%R |}
                    zero_descs zero_descs zero_labels = Ok 0%R).
  { unfold Losses.SBContrastiveLoss.forward. simpl.
    unfold ret, mean1, sum1, sum_n. simpl.
    rewrite !zero_descs_distance. f_equal. lra. }
  assert (Hdoc : Formulas.sb_contrastive 2%R 2
                   (row_distance zero_descs zero_descs)
                   (row_distance zero_descs zero_descs) = 8%R).
  { unfold Formulas.sb_contrastive, Formulas.sum_others, Formulas.hinge,
      sum_n.
    simpl. rewrite !zero_descs_distance.
    replace (2 - 0 + 0)%R with 2%R by ring.
    rewrite Rmax_left by lra. ring. }
  split; [ exact Hcode | ]. split; [ exact Hdoc | ].
  rewrite Hcode, Hdoc. intros E. inversion E. lra.
Qed.

End RealFacts.

(* ================================================================== *)
(** * The two contrastive losses leave the store as it is             *)
(* ================================================================== *)

Section FrameFacts.
Context {A : Type} `{Scalar A} `{Distance A}.

(** [h'] is [h] with further objects allocated after it. *)
Definition extends (h h' : heap A) : Prop := exists ext, h' = h ++ ext.

(** A computation that leaves every object of the store it starts in as
    it is, whether it returns or raises. *)
Definition allocates_only {X} (m : M A X) : Prop :=
  forall h, extends h (snd (m h)).

Lemma extends_refl (h : heap A) : extends h h.
Proof. exists []. symmetry. apply app_nil_r. Qed.

Lemma extends_trans (h1 h2 h3 : heap A) :
  extends h1 h2 -> extends h2 h3 -> extends h1 h3.
Proof.
  intros [e1 ->] [e2 ->]. exists (e1 ++ e2). symmetry. apply app_assoc.
Qed.

Lemma extends_lookup (h h' : heap A) (r : ref) (o : object A) :
  extends h h' -> nth_error h r = Some o -> nth_error h' r = Some o.
Proof.
  intros [ext ->] Hr. rewrite nth_error_app1; [ exact Hr | ].
  apply nth_error_Some. congruence.
Qed.

Lemma lookup_new (h : heap A) (o : object A) :
  nth_error (h ++ [o]) (length h) = Some o.
Proof. rewrite nth_error_app2, Nat.sub_diag by lia. reflexivity. Qed.

Lemma lookup_old (h : heap A) (o o' : object A) (r : ref) :
  nth_error h r = Some o -> nth_error (h ++ [o']) r = Some o.
Proof. apply extends_lookup. exists [o']. reflexivity. Qed.

Lemma lift_allocates_only {X} (r : result X) : allocates_only (lift r).
Proof. intros h. apply extends_refl. Qed.

Lemma read_vector_allocates_only (r : ref) :
  allocates_only (read_vector r).
Proof.
  intros h. unfold read_vector.
  destruct (nth_error h r) as [ [ | | | ] | ]; apply extends_refl.
Qed.

Lemma read_matrix_allocates_only (r : ref) :
  allocates_only (read_matrix r).
Proof.
  intros h. unfold read_matrix.
  destruct (nth_error h r) as [ [ | | | ] | ]; apply extends_refl.
Qed.

Lemma getattr_margin_allocates_only (r : ref) :
  allocates_only (getattr_margin r).
Proof.
  intros h. unfold getattr_margin.
  destruct (nth_error h r) as [ [ | | | ] | ]; apply extends_refl.
Qed.

Lemma alloc_allocates_only (o : object A) : allocates_only (alloc o).
Proof. intros h. exists [o]. reflexivity. Qed.

Lemma bind_allocates_only {X Y} (m : M A X) (k : X -> M A Y) :
  allocates_only m -> (forall x, allocates_only (k x)) ->
  allocates_only (bind_M m k).
Proof.
  intros Hm Hk h. unfold bind_M. specialize (Hm h).
  destruct (m h) as [[x | e] h1]; simpl in *.
  - apply extends_trans with (h2 := h1); [ exact Hm | apply Hk ].
  - exact Hm.
Qed.

End FrameFacts.

Create HintDb frame.

#[export] Hint Resolve lift_allocates_only read_vector_allocates_only
  read_matrix_allocates_only getattr_margin_allocates_only
  alloc_allocates_only : frame.

(** A program made of the primitives above by sequencing. *)
Ltac frame_steps :=
  repeat (apply bind_allocates_only; [ | intro ]); auto with frame.

Section FrameOfLosses.
Context {A : Type} `{Scalar A} `{Distance A}.

Lemma F_pairwise_distance_allocates_only (x1 x2 : ref) :
  allocates_only (HeapLosses.F_pairwise_distance x1 x2).
Proof. unfold HeapLosses.F_pairwise_distance. frame_steps. Qed.

Lemma rsub_allocates_only (c : A) (t : ref) :
  allocates_only (HeapLosses.rsub c t).
Proof. unfold HeapLosses.rsub. frame_steps. Qed.

Lemma torch_pow_allocates_only (t : ref) (n : nat) :
  allocates_only (HeapLosses.torch_pow t n).
Proof. unfold HeapLosses.torch_pow. frame_steps. Qed.

Lemma torch_clamp_allocates_only (t : ref) (lo : A) :
  allocates_only (HeapLosses.torch_clamp t lo).
Proof. unfold HeapLosses.torch_clamp. frame_steps. Qed.

Lemma tensor_mul_allocates_only (a b : ref) :
  allocates_only (HeapLosses.tensor_mul a b).
Proof. unfold HeapLosses.tensor_mul. frame_steps. Qed.

Lemma tensor_add_allocates_only (a b : ref) :
  allocates_only (HeapLosses.tensor_add a b).
Proof. unfold HeapLosses.tensor_add. frame_steps. Qed.

Lemma torch_mean_allocates_only (t : ref) :
  allocates_only (HeapLosses.torch_mean t).
Proof. unfold HeapLosses.torch_mean. frame_steps. Qed.

End FrameOfLosses.

#[export] Hint Resolve F_pairwise_distance_allocates_only rsub_allocates_only
  torch_pow_allocates_only torch_clamp_allocates_only
  tensor_mul_allocates_only tensor_add_allocates_only
  torch_mean_allocates_only : frame.

Section FrameTheorem.
Context {A : Type} `{Scalar A} `{Distance A}.

Lemma ContrastiveLoss_allocates_only (self output1 output2 label : ref) :
  allocates_only
    (HeapLosses.ContrastiveLoss_forward self output1 output2 label).
Proof. unfold HeapLosses.ContrastiveLoss_forward. frame_steps. Qed.

Lemma SBContrastiveLoss_allocates_only (self desc1 desc2 label : ref) :
  allocates_only
    (HeapLosses.SBContrastiveLoss_forward self desc1 desc2 label).
Proof. unfold HeapLosses.SBContrastiveLoss_forward. frame_steps. Qed.

(** C7: a call of [ContrastiveLoss.forward] or of
    [SBContrastiveLoss.forward] changes no object that exists when it
    starts, whether it returns or raises: the store afterwards is the store
    before followed by freshly allocated objects, so the module with its
    [margin] and the three argument tensors are what they were. *)
Theorem contrastive_losses_change_nothing
        (self x1 x2 label : ref) (h : heap A) :
  let after_cl :=
    snd (HeapLosses.ContrastiveLoss_forward self x1 x2 label h) in
  let after_sb :=
    snd (HeapLosses.SBContrastiveLoss_forward self x1 x2 label h) in
  (extends h after_cl /\
   forall r o, nth_error h r = Some o -> nth_error after_cl r = Some o) /\
  (extends h after_sb /\
   forall r o, nth_error h r = Some o -> nth_error after_sb r = Some o).
Proof.
  pose proof (ContrastiveLoss_allocates_only self x1 x2 label h) as Hcl.
  pose proof (SBContrastiveLoss_allocates_only self x1 x2 label h) as Hsb.
  cbv zeta. repeat split; try assumption.
  - intros r o. apply extends_lookup. exact Hcl.
  - intros r o. apply extends_lookup. exact Hsb.
Qed.

End FrameTheorem.

(** ** The programs on the store compute the values of [losses.py] *)

(** A reference is looked up in a store grown by allocations. *)
Ltac lookup :=
  first [ eassumption
        | apply lookup_new
        | apply lookup_old; lookup ].

Section HeapRefinement.
Context {A : Type} `{Scalar A} `{Distance A}.

Lemma read_vector_at (h : heap A) (r : ref) (v : tensor1 A) :
  nth_error h r = Some (Vector v) -> read_vector r h = (Ok v, h).
Proof. intros E. unfold read_vector. rewrite E. reflexivity. Qed.

Lemma read_matrix_at (h : heap A) (r : ref) (m : tensor2 A) :
  nth_error h r = Some (Matrix m) -> read_matrix r h = (Ok m, h).
Proof. intros E. unfold read_matrix. rewrite E. reflexivity. Qed.

Lemma F_pairwise_distance_at (h : heap A) (x1 x2 : ref) (a b : tensor2 A) :
  nth_error h x1 = Some (Matrix a) -> nth_error h x2 = Some (Matrix b) ->
  HeapLosses.F_pairwise_distance x1 x2 h =
  match pairwise_distance a b with
  | Ok d => (Ok (length h), h ++ [Vector d])
  | Err e => (Err e, h)
  end.
Proof.
  intros E1 E2. unfold HeapLosses.F_pairwise_distance, bind_M.
  rewrite (@read_matrix_at h x1 a E1), (@read_matrix_at h x2 b E2).
  unfold lift. destruct (pairwise_distance a b); reflexivity.
Qed.

Lemma map_at (f : A -> A) (h : heap A) (t : ref) (v : tensor1 A) :
  nth_error h t = Some (Vector v) ->
  bind_M (read_vector t) (fun v => alloc (Vector (map1 f v))) h =
  (Ok (length h), h ++ [Vector (map1 f v)]).
Proof.
  intros E. unfold bind_M. rewrite (@read_vector_at h t v E). reflexivity.
Qed.

Lemma broadcast_at (op : A -> A -> A) (h : heap A) (a b : ref)
      (u v : tensor1 A) :
  nth_error h a = Some (Vector u) -> nth_error h b = Some (Vector v) ->
  bind_M (read_vector a) (fun u =>
    bind_M (read_vector b) (fun v =>
      bind_M (lift (broadcast1 op u v)) (fun w => alloc (Vector w)))) h =
  match broadcast1 op u v with
  | Ok w => (Ok (length h), h ++ [Vector w])
  | Err e => (Err e, h)
  end.
Proof.
  intros E1 E2. unfold bind_M.
  rewrite (@read_vector_at h a u E1), (@read_vector_at h b v E2).
  unfold lift. destruct (broadcast1 op u v); reflexivity.
Qed.

Lemma torch_mean_at (h : heap A) (t : ref) (v : tensor1 A) :
  nth_error h t = Some (Vector v) ->
  HeapLosses.torch_mean t h = (Ok (length h), h ++ [Number (mean1 v)]).
Proof.
  intros E. unfold HeapLosses.torch_mean, bind_M.
  rewrite (@read_vector_at h t v E). reflexivity.
Qed.

Lemma getattr_margin_at (h : heap A) (self : ref) (m : A) :
  nth_error h self = Some (LossModule m) ->
  getattr_margin self h = (Ok m, h).
Proof. intros E. unfold getattr_margin. rewrite E. reflexivity. Qed.

(** What a run on the store has to do with a result of the function on
    values: it raises the same exception, or it returns a reference to the
    number computed. *)
Definition computes (run : result ref * heap A) (value : result A) : Prop :=
  match value with
  | Ok v => exists r, fst run = Ok r /\ nth_error (snd run) r = Some (Number v)
  | Err e => fst run = Err e
  end.

Lemma ContrastiveLoss_on_heap (h : heap A) (self x1 x2 label : ref)
      (m : A) (a b : tensor2 A) (l : tensor1 A) :
  nth_error h self = Some (LossModule m) ->
  nth_error h x1 = Some (Matrix a) ->
  nth_error h x2 = Some (Matrix b) ->
  nth_error h label = Some (Vector l) ->
  computes (HeapLosses.ContrastiveLoss_forward self x1 x2 label h)
           (Losses.ContrastiveLoss.forward
              {| Losses.ContrastiveLoss.margin := m |} a b l).
Proof.
  intros Hs H1 H2 Hl.
  unfold HeapLosses.ContrastiveLoss_forward, Losses.ContrastiveLoss.forward.
  unfold bind_M at 1. rewrite (@F_pairwise_distance_at h x1 x2 a b H1 H2).
  destruct (pairwise_distance a b) as [d | e]; [ | reflexivity ].
  rewrite bind_Ok.
  set (h1 := h ++ [Vector d]).
  assert (Hd : nth_error h1 (length h) = Some (Vector d)) by apply lookup_new.
  unfold bind_M at 1. unfold HeapLosses.rsub at 1.
  rewrite (@map_at (sub one) h1 label l) by lookup.
  set (h2 := h1 ++ _).
  unfold bind_M at 1. unfold HeapLosses.torch_pow at 1.
  rewrite (@map_at (fun x => pow x 2) h2 (length h) d)
    by lookup.
  set (h3 := h2 ++ _).
  unfold bind_M at 1. unfold HeapLosses.tensor_mul at 1.
  rewrite (@broadcast_at mul h3 (length h1) (length h2)
             (map1 (sub one) l) (map1 (fun x => pow x 2) d))
    by lookup.
  destruct (broadcast1 mul (map1 (sub one) l) (map1 (fun x => pow x 2) d))
    as [similar | e]; [ | reflexivity ].
  rewrite bind_Ok.
  set (h4 := h3 ++ _).
  assert (Hd4 : nth_error h4 (length h) = Some (Vector d))
    by lookup.
  unfold bind_M at 1.
  rewrite (@getattr_margin_at h4 self m)
    by lookup.
  unfold bind_M at 1. unfold HeapLosses.rsub at 1.
  rewrite (@map_at (sub m) h4 (length h) d) by lookup.
  set (h5 := h4 ++ _).
  unfold bind_M at 1. unfold HeapLosses.torch_clamp at 1.
  rewrite (@map_at (fun x => clamp_min x zero) h5 (length h4) (map1 (sub m) d))
    by lookup.
  set (h6 := h5 ++ _).
  unfold bind_M at 1. unfold HeapLosses.torch_pow at 1.
  rewrite (@map_at (fun x => pow x 2) h6 (length h5)
             (map1 (fun x => clamp_min x zero) (map1 (sub m) d)))
    by lookup.
  set (h7 := h6 ++ _).
  unfold bind_M at 1. unfold HeapLosses.tensor_mul at 1.
  rewrite (@broadcast_at mul h7 label (length h6) l
             (map1 (fun x => pow x 2)
                   (map1 (fun x => clamp_min x zero) (map1 (sub m) d))))
    by lookup.
  cbn [Losses.ContrastiveLoss.margin].
  destruct (broadcast1 mul l _) as [dissimilar | e]; [ | reflexivity ].
  rewrite bind_Ok.
  set (h8 := h7 ++ _).
  unfold bind_M at 1. unfold HeapLosses.tensor_add at 1.
  rewrite (@broadcast_at add h8 (length h3) (length h7) similar dissimilar)
    by lookup.
  destruct (broadcast1 add similar dissimilar) as [total | e];
    [ | reflexivity ].
  rewrite bind_Ok.
  set (h9 := h8 ++ _).
  rewrite (@torch_mean_at h9 (length h8) total) by lookup.
  exists (length h9). split; [ reflexivity | apply lookup_new ].
Qed.

Lemma SBContrastiveLoss_on_heap (h : heap A) (self x1 x2 label : ref)
      (m : A) (a b : tensor2 A) (l : tensor1 A) :
  nth_error h self = Some (LossModule m) ->
  nth_error h x1 = Some (Matrix a) ->
  nth_error h x2 = Some (Matrix b) ->
  nth_error h label = Some (Vector l) ->
  computes (HeapLosses.SBContrastiveLoss_forward self x1 x2 label h)
           (Losses.SBContrastiveLoss.forward
              {| Losses.SBContrastiveLoss.margin := m |} a b l).
Proof.
  intros Hs H1 H2 Hl.
  apply (@ContrastiveLoss_on_heap h self x1 x2 label m a b l); assumption.
Qed.

End HeapRefinement.

Section SameLoss.
Context {A : Type} `{Scalar A} `{Distance A}.

(** C8: [SBContrastiveLoss.forward] and [ContrastiveLoss.forward] are the
    same function of the margin, the two batches and the labels: they return
    the same value or raise the same exception.  The same holds of the
    two programs on the store. *)
Theorem SBContrastiveLoss_is_ContrastiveLoss
        (margin : A) (desc1 desc2 : tensor2 A) (label : tensor1 A) :
  Losses.SBContrastiveLoss.forward
    {| Losses.SBContrastiveLoss.margin := margin |} desc1 desc2 label =
  Losses.ContrastiveLoss.forward
    {| Losses.ContrastiveLoss.margin := margin |} desc1 desc2 label /\
  (forall (self x1 x2 l : ref) (h : heap A),
      HeapLosses.SBContrastiveLoss_forward self x1 x2 l h =
      HeapLosses.ContrastiveLoss_forward self x1 x2 l h).
Proof.
  split.
  - unfold Losses.SBContrastiveLoss.forward, Losses.ContrastiveLoss.forward.
    cbn [Losses.SBContrastiveLoss.margin Losses.ContrastiveLoss.margin].
    reflexivity.
  - intros self x1 x2 l h.
    unfold HeapLosses.SBContrastiveLoss_forward,
      HeapLosses.ContrastiveLoss_forward.
    reflexivity.
Qed.

End SameLoss.

(* ================================================================== *)
(** * [FullBiLSTM.__init__], [forward] and [init_hidden]               *)
(* ================================================================== *)

Section Architecture.
Context {A : Type} `{Scalar A} `{Packing A} `{Random A} `{Vision A}.
Context `{!Recurrent A}.

Definition shape3 (t : tensor3 A) : nat * nat * nat :=
  (dim0 t, dim1 t, dim2 t).

Lemma randn3_shape (a b c : nat) (g : generator) :
  shape3 (fst (randn3 a b c g)) = (a, b, c).
Proof. unfold randn3. destruct (draws (a * b * c) g). reflexivity. Qed.

Lemma Linear_new_shape (n_in n_out : nat) (g : generator) :
  let l := fst (Linear_new n_in n_out g) in
  in_features l = n_in /\ out_features l = n_out /\
  rows2 (weight l) = n_out /\ cols2 (weight l) = n_in /\
  size1 (bias l) = n_out.
Proof.
  unfold Linear_new, randn2, randn1.
  destruct (draws (n_out * n_in) g) as [ws g1].
  destruct (draws n_out g1) as [bs g2]. simpl. auto.
Qed.

(** The width of the output of a linear layer. *)
Lemma Linear_forward_cols (l : Linear A) (x y : tensor2 A) :
  Linear_forward l x = Ok y ->
  rows2 y = rows2 x /\ cols2 y = rows2 (weight l).
Proof.
  unfold Linear_forward, mm. simpl.
  destruct (cols2 x =? cols2 (weight l)); simpl; [ | discriminate ].
  destruct (rows2 (weight l) =? size1 (bias l)); [ | discriminate ].
  intros E; inversion E; subst; simpl. auto.
Qed.

Lemma init_fields (input_dim hidden_dim : nat) (batch_first : bool)
      (dropout : A) (g : generator) :
  let self := fst (Model.init input_dim hidden_dim batch_first dropout g) in
  Model.input_dim self = input_dim /\
  Model.hidden_dim self = hidden_dim /\
  Model.batch_first self = batch_first /\
  Model.fc (Model.cnn self) = fst (Linear_new 2048 input_dim g) /\
  lstm_cfg (Model.lstm self) =
    {| input_size := input_dim; hidden_size := hidden_dim;
       num_layers := 1; lstm_batch_first := batch_first;
       bidirectional := true; lstm_dropout := dropout |}.
Proof.
  unfold Model.init.
  destruct (Linear_new 2048 input_dim g) as [new_fc g1].
  unfold LSTM_new.
  destruct (lstm_init _ g1) as [w g2]. simpl. auto.
Qed.

(** C5: the model built by [FullBiLSTM(input_dim, hidden_dim, ...)] has a
    last fully-connected layer from 2048 to [input_dim] features and an
    LSTM with one layer, two directions and hidden size [hidden_dim];
    the features of the CNN have width [input_dim]; [forward] returns
    exactly when the CNN, [create_packed_seq] on its features and the LSTM
    on the packed features return, and then it returns the packed features
    with the result of the LSTM; and [init_hidden(batch_size)] returns two
    tensors of shape [(2, batch_size, hidden_dim)]. *)
Theorem FullBiLSTM_forward_is_cnn_pack_lstm
        (input_dim hidden_dim : nat) (batch_first : bool) (dropout : A)
        (g : generator) :
  let self := fst (Model.init input_dim hidden_dim batch_first dropout g) in
  (in_features (Model.fc (Model.cnn self)) = 2048 /\
   out_features (Model.fc (Model.cnn self)) = input_dim) /\
  lstm_cfg (Model.lstm self) =
    {| input_size := input_dim; hidden_size := hidden_dim;
       num_layers := 1; lstm_batch_first := batch_first;
       bidirectional := true; lstm_dropout := dropout |} /\
  (forall images feats aux,
      Model.Inception_forward (Model.cnn self) images = Ok (feats, aux) ->
      cols2 feats = input_dim) /\
  (forall images seq_lens lookup_table hidden packed_feats out,
      Model.forward self images seq_lens lookup_table hidden =
        Ok (packed_feats, out) <->
      exists feats aux,
        Model.Inception_forward (Model.cnn self) images = Ok (feats, aux) /\
        Model.create_packed_seq self feats seq_lens lookup_table =
          Ok packed_feats /\
        LSTM_forward (Model.lstm self) packed_feats hidden = Ok out) /\
  (forall batch_size g',
      shape3 (fst (fst (Model.init_hidden self batch_size g'))) =
        (2, batch_size, hidden_dim) /\
      shape3 (snd (fst (Model.init_hidden self batch_size g'))) =
        (2, batch_size, hidden_dim)).
Proof.
  intros self.
  destruct (init_fields input_dim hidden_dim batch_first dropout g)
    as (Hi & Hh & Hb & Hfc & Hcfg).
  fold self in Hi, Hh, Hb, Hfc, Hcfg.
  destruct (Linear_new_shape 2048 input_dim g) as (Lin & Lout & Wr & Wc & Bs).
  rewrite <- Hfc in Lin, Lout, Wr, Wc, Bs.
  split; [ auto | ]. split; [ exact Hcfg | ]. split; [ | split ].
  - intros images feats aux. unfold Model.Inception_forward.
    destruct (inception_trunk images) as [[pooled aux'] | e];
      simpl; [ | discriminate ].
    destruct (Linear_forward (Model.fc (Model.cnn self)) pooled)
      as [y | e] eqn:Ey; simpl; [ | discriminate ].
    intros E. injection E as Ef Ea. rewrite <- Ef.
    apply Linear_forward_cols in Ey. destruct Ey as [_ Ey].
    rewrite Ey. exact Wr.
  - intros images seq_lens lookup_table hidden packed_feats out.
    unfold Model.forward. split.
    + intros E.
      destruct (Model.Inception_forward (Model.cnn self) images)
        as [[feats aux] | e]; simpl in E; [ | discriminate ].
      destruct (Model.create_packed_seq self feats seq_lens lookup_table)
        as [p | e] eqn:E2; simpl in E; [ | discriminate ].
      destruct (LSTM_forward (Model.lstm self) p hidden)
        as [o | e] eqn:E3; simpl in E; [ | discriminate ].
      injection E as Ep Eo. rewrite <- Ep, <- Eo.
      exists feats, aux. auto.
    + intros (feats & aux & E1 & E2 & E3).
      rewrite E1. simpl. rewrite E2. simpl. rewrite E3. reflexivity.
  - intros batch_size g'. unfold Model.init_hidden.
    pose proof (randn3_shape 2 batch_size (Model.hidden_dim self) g') as S1.
    destruct (randn3 2 batch_size (Model.hidden_dim self) g') as [h0 g1].
    pose proof (randn3_shape 2 batch_size (Model.hidden_dim self) g1) as S2.
    destruct (randn3 2 batch_size (Model.hidden_dim self) g1) as [c0 g2].
    simpl in *. rewrite Hh in S1, S2. auto.
Qed.

End Architecture.

(* ================================================================== *)
(** * Where exceptions come from                                       *)
(* ================================================================== *)

Section Origins.
Context {A : Type} `{Scalar A} `{Packing A} `{Distance A} `{Random A}.
Context `{Vision A} `{!Recurrent A}.

(** [e] is raised by a primitive, or it is what a call of a library
    function returned. *)
Inductive foreign (e : exn) : Prop :=
| from_primitive : In e primitive_errors -> foreign e
| from_pack x lens b : pack_padded_sequence x lens b = Err e -> foreign e
| from_pad p b : pad_packed_sequence p b = Err e -> foreign e
| from_distance x1 x2 : pairwise_distance x1 x2 = Err e -> foreign e
| from_trunk images : inception_trunk images = Err e -> foreign e
| from_lstm cfg w input hidden :
    lstm_apply cfg w input hidden = Err e -> foreign e.

(** Every exception of [m] is foreign. *)
Definition passes_on {X} (m : result X) : Prop :=
  forall e, m = Err e -> foreign e.

Lemma passes_on_Ok {X} (x : X) : passes_on (Ok x).
Proof. intros e E. discriminate. Qed.

Lemma passes_on_primitive {X} (e : exn) :
  In e primitive_errors -> passes_on (@Err X e).
Proof. intros Hin e' E. inversion E; subst. apply from_primitive, Hin. Qed.

Lemma passes_on_bind {X Y} (m : result X) (k : X -> result Y) :
  passes_on m -> (forall x, passes_on (k x)) -> passes_on (bind m k).
Proof.
  intros Hm Hk e E. apply bind_err_inv in E.
  destruct E as [E | (x & _ & E)]; [ apply Hm | apply (Hk x) ]; exact E.
Qed.



Lemma passes_on_if {X} (b : bool) (m1 m2 : result X) :
  passes_on m1 -> passes_on m2 -> passes_on (if b then m1 else m2).
Proof. destruct b; auto. Qed.

(** *** The primitives *)

Lemma passes_on_max (xs : list nat) : passes_on (Py.max xs).
Proof.
  intros e E. apply max_err in E. destruct E as [_ ->].
  apply from_primitive. simpl; auto.
Qed.

Lemma passes_on_getitem {X} (xs : list X) (i : nat) :
  passes_on (Py.getitem xs i).
Proof.
  unfold Py.getitem. destruct (nth_error xs i).
  - apply passes_on_Ok.
  - apply passes_on_primitive. simpl; auto.
Qed.

Ltac primitive :=
  repeat (apply passes_on_if);
  first [ apply passes_on_Ok
        | apply passes_on_primitive; simpl; tauto ].

Lemma passes_on_getitem2 (t : tensor2 A) (idx : Z) :
  passes_on (getitem2 t idx).
Proof. unfold getitem2. cbv zeta. primitive. Qed.

Lemma passes_on_row2 (t : tensor2 A) (j : nat) : passes_on (row2 t j).
Proof. unfold row2. primitive. Qed.

Lemma passes_on_getitem3 (t : tensor3 A) (k : nat) :
  passes_on (getitem3 t k).
Proof. unfold getitem3. primitive. Qed.

Lemma passes_on_select_slice3 (t : tensor3 A) (i stop lo hi : nat) :
  passes_on (select_slice3 t i stop lo hi).
Proof. unfold select_slice3. cbv zeta. primitive. Qed.

Lemma passes_on_setitem3 (t : tensor3 A) (i j : nat) (v : tensor1 A) :
  passes_on (setitem3 t i j v).
Proof. unfold setitem3. primitive. Qed.

Lemma passes_on_index_select3 (t : tensor3 A) (perm : list nat) :
  passes_on (index_select3 t perm).
Proof. unfold index_select3. primitive. Qed.

Lemma passes_on_cat2 (a b : tensor2 A) : passes_on (cat2 a b).
Proof. unfold cat2. primitive. Qed.

Lemma passes_on_cat2_axis1 (a b : tensor2 A) : passes_on (cat2_axis1 a b).
Proof. unfold cat2_axis1. primitive. Qed.

Lemma passes_on_cat_elems (ts : list A) : passes_on (cat_elems ts).
Proof. unfold cat_elems. destruct ts; primitive. Qed.

Lemma passes_on_stack2 (ts : list (tensor2 A)) : passes_on (stack2 ts).
Proof. unfold stack2. destruct ts; primitive. Qed.

Lemma passes_on_dot (u v : tensor1 A) : passes_on (dot u v).
Proof. unfold dot. primitive. Qed.

Lemma passes_on_mm (a b : tensor2 A) : passes_on (mm a b).
Proof. unfold mm. primitive. Qed.

Lemma passes_on_broadcast1 (op : A -> A -> A) (u v : tensor1 A) :
  passes_on (broadcast1 op u v).
Proof. unfold broadcast1. primitive. Qed.

Lemma passes_on_Linear_forward (l : Linear A) (x : tensor2 A) :
  passes_on (Linear_forward l x).
Proof.
  unfold Linear_forward. apply passes_on_bind; [ apply passes_on_mm | ].
  intros y. primitive.
Qed.

(** *** The library functions *)

Lemma passes_on_pack x lens b : passes_on (pack_padded_sequence x lens b).
Proof. intros e E. eapply from_pack; exact E. Qed.

Lemma passes_on_pad p b : passes_on (pad_packed_sequence p b).
Proof. intros e E. eapply from_pad; exact E. Qed.

Lemma passes_on_pairwise_distance x1 x2 :
  passes_on (pairwise_distance x1 x2).
Proof. intros e E. eapply from_distance; exact E. Qed.

Lemma passes_on_trunk images : passes_on (inception_trunk images).
Proof. intros e E. eapply from_trunk; exact E. Qed.

Lemma passes_on_lstm_apply cfg w input hidden :
  passes_on (lstm_apply cfg w input hidden).
Proof. intros e E. eapply from_lstm; exact E. Qed.

End Origins.

Create HintDb origins.

#[export] Hint Resolve passes_on_Ok passes_on_max passes_on_getitem
  passes_on_getitem2 passes_on_row2 passes_on_getitem3
  passes_on_select_slice3 passes_on_setitem3 passes_on_index_select3
  passes_on_cat2 passes_on_cat2_axis1 passes_on_cat_elems passes_on_stack2
  passes_on_dot passes_on_mm passes_on_broadcast1 passes_on_Linear_forward
  passes_on_pack passes_on_pad passes_on_pairwise_distance passes_on_trunk
  passes_on_lstm_apply : origins.


Section NoErrorsOfItsOwn.
Context {A : Type} `{Scalar A} `{Packing A} `{Distance A} `{Random A}.
Context `{Vision A} `{!Recurrent A}.










End NoErrorsOfItsOwn.

(* ================================================================== *)
(** * The theorems at concrete arguments                               *)
(* ================================================================== *)

Section ReferencePacking.
Context {A : Type} `{Scalar A}.

Lemma descending_sorted (l : list nat) :
  Sorted ge l -> Reference.descending l = true.
Proof.
  induction l as [ | a l IH]; intros Hs; [ reflexivity | ].
  inversion Hs as [ | ? ? Hl Hhd]; subst.
  destruct l as [ | b l]; [ reflexivity | ].
  simpl. inversion Hhd; subst.
  apply andb_true_iff. split; [ apply Nat.leb_le; assumption | ].
  apply IH. exact Hl.
Qed.

(** The reference packing keeps the promise of the library. *)
Lemma reference_pack_accepts :
  @pack_accepts A (@Reference.Packed_Packing A _).
Proof.
  intros x lens b Hne Hpos Hsort Hlen Hhd.
  simpl. unfold Reference.pack.
  unfold laid_out in Hlen, Hhd. unfold all_positive in Hpos.
  rewrite Hpos, (descending_sorted Hsort).
  apply Nat.eqb_eq in Hlen. apply Nat.leb_le in Hhd.
  rewrite Hlen, Hhd.
  destruct lens; [ discriminate | ]. simpl.
  eexists; reflexivity.
Qed.

End ReferencePacking.

Module Witnesses.

Import Reference.
Import RealFacts.

(** A model with one-dimensional features, batch first. *)
Definition model : Model.FullBiLSTM := fst (Model.init 1 1 true 0%R 0).

(** Two feature rows, [5] and [6], and two sequences: the first is the
    image 0, the second the image 1 followed by the last image. *)
Definition feats : tensor2 R := T2 2 1 (fun r _ => INR (r + 5)).
Definition seq_lens : list nat := [1; 2].
Definition lookup_table : list (list Z) := [[0%Z]; [1%Z; (-1)%Z]].

Example padded_seqs_run :
  bind (Model.padded_seqs feats seq_lens lookup_table)
       (fun seqs => Ok (to_list3 seqs)) =
  Ok [[[INR 5]; [0%R]]; [[INR 6]; [INR 6]]].
Proof. reflexivity. Qed.

Example length_order_run : Model.length_order seq_lens = [1; 0].
Proof. reflexivity. Qed.

Example length_order_stable : Model.length_order [2; 3; 2; 3] = [1; 3; 0; 2].
Proof. reflexivity. Qed.

Example create_packed_seq_run :
  bind (Model.create_packed_seq model feats seq_lens lookup_table)
       (fun p => Ok (to_list3 (padded p), lengths p)) =
  Ok ([[[INR 6]; [INR 6]]; [[INR 5]; [0%R]]], [2; 1]).
Proof. reflexivity. Qed.

Lemma create_packed_seq_pads_and_packs_witness :
  nonempty seq_lens = true /\
  valid_lookup feats seq_lens lookup_table = true /\
  exists m seqs,
    Py.max seq_lens = Ok m /\
    Model.padded_seqs feats seq_lens lookup_table = Ok seqs /\
    (forall i j, i < 2 -> j < m ->
                 cell_spec feats seq_lens lookup_table seqs i j) /\
    Model.create_packed_seq model feats seq_lens lookup_table =
    pack_padded_sequence
      (laid_out true (reordered seqs (Model.length_order seq_lens)))
      (sorted_desc (fun l => l) seq_lens) true.
Proof.
  split; [ reflexivity | ]. split; [ reflexivity | ].
  destruct (@create_packed_seq_pads_and_packs
              R _ _ _ _ model feats seq_lens lookup_table
              eq_refl eq_refl)
    as (m & seqs & Hm & Hp & _ & Hcells & _ & _ & _ & _ & Hc).
  exists m, seqs. repeat split; assumption.
Defined.

Lemma create_packed_seq_in_bounds_witness :
  nonempty seq_lens = true /\
  all_positive seq_lens = true /\
  valid_lookup feats seq_lens lookup_table = true /\
  exists p, Model.create_packed_seq model feats seq_lens lookup_table = Ok p.
Proof.
  split; [ reflexivity | ]. split; [ reflexivity | ].
  split; [ reflexivity | ].
  destruct (@create_packed_seq_in_bounds
              R _ _ _ _ model feats seq_lens lookup_table
              eq_refl eq_refl eq_refl) as [_ Hreturns].
  apply Hreturns. apply reference_pack_accepts.
Defined.

(** One sequence of one timestep, with a hidden state twice as wide as
    the features. *)
Definition losses : Losses.LSTMLosses.t :=
  {| Losses.LSTMLosses.batch_first := true;
     Losses.LSTMLosses.cuda := false |}.
Definition one_step : tensor3 R := T3 1 1 1 (fun _ _ _ => 1%R).
Definition one_hidden : tensor3 R := T3 1 1 2 (fun _ _ _ => 1%R).
Definition one_packed : @PackedSequence R Packed_Packing :=
  {| padded := one_step; lengths := [1] |}.


(** The distances of the zero descriptors of [RealFacts]. *)
Definition zero_distances : tensor1 R :=
  T1 2 (fun i => row_distance zero_descs zero_descs i i).

Lemma ContrastiveLoss_forward_formula_witness :
  pairwise_distance zero_descs zero_descs = Ok zero_distances /\
  size1 zero_labels = size1 zero_distances /\
  Losses.ContrastiveLoss.forward
    {| Losses.ContrastiveLoss.margin := 2%R |}
    zero_descs zero_descs zero_labels =
  Ok (Formulas.contrastive 2%R 2 (at1 zero_labels) (at1 zero_distances)).
Proof.
  split; [ reflexivity | ]. split; [ reflexivity | ].
  apply (@ContrastiveLoss_forward_formula
           R _ _ {| Losses.ContrastiveLoss.margin := 2%R |}
           zero_descs zero_descs zero_labels zero_distances);
    reflexivity.
Defined.

(** A sequence of length one in a batch padded to two positions. *)
Definition padded_step : tensor3 R :=
  T3 1 2 1 (fun _ p _ => if p <? 1 then 1%R else 0%R).
Definition step_hidden : tensor2 R := T2 1 1 (fun _ _ => 1%R).



(** The losses of that one-step sequence: both probabilities are
    [exp(0) / exp(1)], whose negated logarithm is 1. *)
Example LSTMLosses_forward_run :
  Losses.LSTMLosses.forward losses one_packed one_hidden = Ok (1%R, 1%R).
Proof.
  unfold Losses.LSTMLosses.forward.
  change (pad_packed_sequence one_packed
            (Losses.LSTMLosses.batch_first losses))
    with (Ok (one_step, [1])).
  rewrite bind_Ok, (@sequences_loop_ok R _ one_step one_hidden [1] eq_refl).
  rewrite bind_Ok. unfold ret.
  unfold Formulas.likelihood_losses, Formulas.batch_mean, Formulas.seq_nll,
    Formulas.fw_prob, Formulas.bw_prob, Formulas.normaliser, Formulas.dotp,
    Formulas.h_fw, Formulas.h_bw, Formulas.x_stop, Formulas.x_start, sum_n.
  simpl.
  assert (E : ln (0 + Rtrigo_def.exp (0 + 1 * 0) /
                      (0 + (0 + Rtrigo_def.exp (0 + 1 * 1)))) = (-1)%R).
  { replace (0 + 1 * 0)%R with 0%R by ring.
    replace (0 + 1 * 1)%R with 1%R by ring.
    rewrite exp_0.
    replace (0 + 1 / (0 + (0 + Rtrigo_def.exp 1)))%R
      with (/ Rtrigo_def.exp 1)%R
      by (field; apply Rgt_not_eq, exp_pos).
    rewrite ln_Rinv by apply exp_pos. rewrite ln_exp. reflexivity. }
  rewrite E. f_equal. f_equal; lra.
Qed.

(** The normalising sum of that padded sequence: [exp(1)] for its only
    valid position and 1 for the padded one. *)
Example denominator_run :
  Losses.LSTMLosses.denom padded_step [1] step_hidden 0 =
  Ok (Rtrigo_def.exp 1 + 1)%R.
Proof.
  rewrite denom_ok; try reflexivity; try (simpl; lia).
  unfold denom_value, sum_n. simpl. f_equal.
  replace (0 + 1 * 1)%R with 1%R by ring.
  replace (0 + 1 * 0)%R with 0%R by ring.
  rewrite exp_0. ring.
Qed.

(** A store with a loss module of margin 2, the zero descriptors, twice,
    and the zero labels. *)
Definition store : heap R :=
  [LossModule 2%R; Matrix zero_descs; Matrix zero_descs; Vector zero_labels].

Example ContrastiveLoss_on_store :
  let run := HeapLosses.ContrastiveLoss_forward 0 1 2 3 store in
  fst run = Ok 13 /\
  firstn 4 (snd run) = store /\
  length (snd run) = 14 /\
  exists v, nth_error (snd run) 13 = Some (Number v) /\ v = 0%R.
Proof.
  cbv zeta. split; [ reflexivity | ]. split; [ reflexivity | ].
  split; [ reflexivity | ].
  eexists. split; [ reflexivity | ].
  unfold mean1, sum1, sum_n. simpl.
  rewrite !zero_descs_distance. lra.
Qed.

End Witnesses.

(* ================================================================== *)
(** * Further properties of [create_packed_seq]                        *)
(* ================================================================== *)

Unset Implicit Arguments.

Section LoopOutcomes.

(** A loop that returns has run its body on every element. *)
Lemma for_each_ok_nth {X S} (xs : list X) (body : X -> S -> result S) :
  forall acc r, for_each xs acc body = Ok r ->
  forall n x, nth_error xs n = Some x ->
  exists a a', body x a = Ok a'.
Proof.
  induction xs as [ | y ys IH]; intros acc r E n x Hn.
  - destruct n; discriminate.
  - simpl in E. apply bind_ok_inv in E. destruct E as (acc1 & E1 & E2).
    destruct n as [ | n]; simpl in Hn.
    + inversion Hn; subst. exists acc, acc1. exact E1.
    + apply (IH acc1 r E2 n x Hn).
Qed.

(** A loop whose body keeps [Inv] or raises within [P] does the same. *)
Lemma for_each_outcome {X S} (Inv : S -> Prop) (P : exn -> Prop)
      (xs : list X) (body : X -> S -> result S) :
  (forall x acc, In x xs -> Inv acc ->
                 match body x acc with Ok a => Inv a | Err e => P e end) ->
  forall acc, Inv acc ->
  match for_each xs acc body with Ok a => Inv a | Err e => P e end.
Proof.
  induction xs as [ | x xs IH]; intros Hb acc Hacc; simpl; [ exact Hacc | ].
  pose proof (Hb x acc (or_introl eq_refl) Hacc) as Hx.
  destruct (body x acc) as [a | e]; simpl; [ | exact Hx ].
  apply IH; [ | exact Hx ].
  intros y a' Hin. apply Hb. right; exact Hin.
Qed.

Lemma for_each_ext {X S} (xs : list X) (f g : X -> S -> result S) :
  (forall x acc, In x xs -> f x acc = g x acc) ->
  forall acc, for_each xs acc f = for_each xs acc g.
Proof.
  induction xs as [ | x xs IH]; intros Hfg acc; simpl; [ reflexivity | ].
  rewrite Hfg by (left; reflexivity).
  destruct (g x acc); simpl; [ | reflexivity ].
  apply IH. intros; apply Hfg; right; assumption.
Qed.

Lemma in_enumerate (seq_lens : list nat) (i l : nat) :
  In (i, l) (enumerate seq_lens) ->
  i < length seq_lens /\ l = nth i seq_lens 0.
Proof.
  intros Hin. apply In_nth_error in Hin. destruct Hin as [n Hn].
  apply nth_error_enumerate in Hn. destruct Hn as [-> Hn].
  split; [ apply nth_error_Some; congruence | ].
  symmetry. apply nth_error_nth. exact Hn.
Qed.

Lemma nth_error_enumerate_nth (seq_lens : list nat) (i : nat) :
  i < length seq_lens ->
  nth_error (enumerate seq_lens) i = Some (i, nth i seq_lens 0).
Proof.
  intros Hi. rewrite enumerate_as_range. unfold range.
  rewrite nth_error_map.
  rewrite nth_error_nth' with (d := 0) by (rewrite length_seq; exact Hi).
  rewrite seq_nth by exact Hi. reflexivity.
Qed.

Lemma nth_error_range_nth (m j : nat) :
  j < m -> nth_error (range m) j = Some j.
Proof.
  intros Hj. unfold range.
  rewrite nth_error_nth' with (d := 0) by (rewrite length_seq; exact Hj).
  rewrite seq_nth by exact Hj. reflexivity.
Qed.

End LoopOutcomes.

Section LookupFacts.
Context {A : Type} `{Scalar A}.

Lemma getitem2_ok_valid (t : tensor2 A) (idx : Z) (v : tensor1 A) :
  getitem2 t idx = Ok v ->
  valid_index (rows2 t) idx = true /\ size1 v = cols2 t.
Proof.
  unfold getitem2, valid_index. cbv zeta.
  destruct ((0 <=? idx) && (idx <? Z.of_nat (rows2 t)))%Z eqn:E1.
  - intros E; inversion E; subst; simpl. split; [ | reflexivity ].
    apply andb_true_iff in E1. destruct E1 as [E1 E2].
    apply Z.leb_le in E1. apply Z.ltb_lt in E2.
    apply andb_true_iff. split; [ apply Z.leb_le | apply Z.ltb_lt ]; lia.
  - destruct ((- Z.of_nat (rows2 t) <=? idx) && (idx <? 0))%Z eqn:E2;
      [ | discriminate ].
    intros E; inversion E; subst; simpl. split; [ | reflexivity ].
    apply andb_true_iff in E2. destruct E2 as [E2 E3].
    apply Z.leb_le in E2. apply Z.ltb_lt in E3.
    apply andb_true_iff. split; [ apply Z.leb_le | apply Z.ltb_lt ]; lia.
Qed.

Lemma getitem2_invalid (t : tensor2 A) (idx : Z) :
  valid_index (rows2 t) idx = false -> getitem2 t idx = Err index_error.
Proof.
  intros Hv. destruct (getitem2 t idx) as [v | e] eqn:E.
  - apply getitem2_ok_valid in E. destruct E as [E _]. congruence.
  - apply getitem2_err in E. subst. reflexivity.
Qed.

(** The inner loop body reads the lookup table only through
    [lookup_table[i][j]], and only inside the sequence. *)
Lemma fill_position_lookup (feats : tensor2 A) (lookup_table : list (list Z))
      (i seq_len j : nat) (seqs : tensor3 A) :
  Model.fill_position feats lookup_table i seq_len j seqs =
  if j <? seq_len then
    match lookup lookup_table i j with
    | Some idx => v <- getitem2 feats idx ;; setitem3 seqs i j v
    | None => Err list_index
    end
  else setitem3 seqs i j (zeros1 (cols2 feats)).
Proof.
  unfold Model.fill_position, lookup, Py.getitem.
  destruct (j <? seq_len); [ | reflexivity ].
  destruct (nth_error lookup_table i) as [row | ]; simpl; [ | reflexivity ].
  destruct (nth_error row j); reflexivity.
Qed.

(** The shape of the padded batch while it is filled. *)
Definition batch_shape (b m d : nat) (seqs : tensor3 A) : Prop :=
  dim0 seqs = b /\ dim1 seqs = m /\ dim2 seqs = d.

(** One round of the inner loop keeps the shape, or raises for its
    position. *)
Lemma fill_position_outcome (feats : tensor2 A) (seq_lens : list nat)
      (lookup_table : list (list Z)) (m i j : nat) (seqs : tensor3 A) :
  i < length seq_lens -> j < m ->
  batch_shape (length seq_lens) m (cols2 feats) seqs ->
  match Model.fill_position feats lookup_table i (nth i seq_lens 0) j seqs with
  | Ok seqs' => batch_shape (length seq_lens) m (cols2 feats) seqs'
  | Err e => lookup_failure feats seq_lens lookup_table e
  end.
Proof.
  intros Hi Hj (D0 & D1 & D2). rewrite fill_position_lookup.
  destruct (Nat.ltb_spec j (nth i seq_lens 0)) as [Hlt | Hge].
  - destruct (lookup lookup_table i j) as [idx | ] eqn:El.
    + destruct (getitem2 feats idx) as [v | e] eqn:Eg; simpl.
      * apply getitem2_ok_valid in Eg. destruct Eg as [_ Hsz].
        destruct (@setitem3_ok _ seqs i j v)
          as (s' & Es & E0 & E1 & E2 & _); try lia.
        rewrite Es. unfold batch_shape. repeat split; congruence.
      * pose proof (getitem2_err feats idx Eg) as ->.
        exists i, j. split; [ exact Hi | ]. split; [ exact Hlt | ].
        right. exists idx. repeat split; try assumption.
        destruct (valid_index (rows2 feats) idx) eqn:Ev; [ | reflexivity ].
        destruct (getitem2_valid feats idx Ev) as (v & Ev' & _). congruence.
    + exists i, j. split; [ exact Hi | ]. split; [ exact Hlt | ].
      left. split; [ exact El | reflexivity ].
  - destruct (@setitem3_ok _ seqs i j (zeros1 (cols2 feats)))
      as (s' & Es & E0 & E1 & E2 & _); try lia.
    { simpl. congruence. }
    rewrite Es. unfold batch_shape. repeat split; congruence.
Qed.

(** The two loops keep the shape, or raise for a position. *)
Lemma fill_padded_outcome (feats : tensor2 A) (seq_lens : list nat)
      (lookup_table : list (list Z)) (m : nat) (seqs : tensor3 A) :
  Py.max seq_lens = Ok m ->
  batch_shape (length seq_lens) m (cols2 feats) seqs ->
  match Model.fill_padded feats seq_lens lookup_table seqs with
  | Ok seqs' => batch_shape (length seq_lens) m (cols2 feats) seqs'
  | Err e => lookup_failure feats seq_lens lookup_table e
  end.
Proof.
  intros Hm Hs. unfold Model.fill_padded.
  apply (for_each_outcome
           (batch_shape (length seq_lens) m (cols2 feats))
           (lookup_failure feats seq_lens lookup_table)); [ | exact Hs ].
  intros [i l] acc Hin Hacc. apply in_enumerate in Hin.
  destruct Hin as [Hi ->]. rewrite Hm, bind_Ok.
  apply (for_each_outcome
           (batch_shape (length seq_lens) m (cols2 feats))
           (lookup_failure feats seq_lens lookup_table)); [ | exact Hacc ].
  intros j acc' Hj Hacc'. apply in_seq in Hj.
  apply fill_position_outcome; [ exact Hi | lia | exact Hacc' ].
Qed.

Lemma padded_seqs_outcome (feats : tensor2 A) (seq_lens : list nat)
      (lookup_table : list (list Z)) :
  match Model.padded_seqs feats seq_lens lookup_table with
  | Ok seqs => exists m, Py.max seq_lens = Ok m /\
                         batch_shape (length seq_lens) m (cols2 feats) seqs
  | Err e => (seq_lens = [] /\ e = max_empty) \/
             (seq_lens <> [] /\ lookup_failure feats seq_lens lookup_table e)
  end.
Proof.
  unfold Model.padded_seqs.
  destruct (Py.max seq_lens) as [m | e] eqn:Hm; simpl.
  - pose proof (@fill_padded_outcome feats seq_lens lookup_table m
                  (zeros3 (length seq_lens) m (cols2 feats)) Hm) as Ho.
    destruct (Model.fill_padded feats seq_lens lookup_table _) as [s | e].
    + exists m. split; [ reflexivity | ]. apply Ho.
      repeat split; reflexivity.
    + right. split.
      * intros ->. discriminate.
      * apply Ho. repeat split; reflexivity.
  - left. apply max_err in Hm. exact Hm.
Qed.

End LookupFacts.

Section PackingConditions.
Context {A : Type} `{Scalar A} `{Packing A} `{Random A}.
Context `{!Recurrent A}.

Lemma lookup_failure_not_in_range (feats : tensor2 A) (seq_lens : list nat)
      (lookup_table : list (list Z)) (e : exn) :
  lookups_in_range feats seq_lens lookup_table ->
  lookup_failure feats seq_lens lookup_table e -> False.
Proof.
  intros Hin (i & j & Hi & Hj & Hf).
  destruct (Hin i j Hi Hj) as (idx & El & Ev).
  destruct Hf as [[El' _] | (idx' & El' & Ev' & _)]; congruence.
Qed.

(** X1: [create_packed_seq] gets as far as calling
    [pack_padded_sequence] exactly when [seq_lens] is not empty and every
    position [j < seq_lens[i]] has a lookup entry that is an index of a row
    of [feats].  Nothing else is required of the lookup table: it may have
    further rows, rows of sequences of length zero may be missing, and the
    entries after the end of a sequence may be anything. *)
Theorem create_packed_seq_reaches_pack_iff
        (self : Model.FullBiLSTM) (feats : tensor2 A)
        (seq_lens : list nat) (lookup_table : list (list Z)) :
  (exists seqs,
      Model.padded_seqs feats seq_lens lookup_table = Ok seqs /\
      Model.create_packed_seq self feats seq_lens lookup_table =
      pack_padded_sequence
        (laid_out (Model.batch_first self)
                  (reordered seqs (Model.length_order seq_lens)))
        (sorted_desc (fun l => l) seq_lens) (Model.batch_first self)) <->
  (seq_lens <> [] /\ lookups_in_range feats seq_lens lookup_table).
Proof.
  split.
  - intros (seqs & Hp & _). unfold Model.padded_seqs in Hp.
    apply bind_ok_inv in Hp. destruct Hp as (m & Hm & Hfill).
    assert (Hne : seq_lens <> []) by (intros ->; discriminate).
    split; [ exact Hne | ].
    destruct (max_ok Hne) as (m' & Hm' & Hle).
    assert (m' = m) by congruence. subst m'.
    intros i j Hi Hj. unfold Model.fill_padded in Hfill.
    destruct (for_each_ok_nth _ _ _ _ Hfill i _ (nth_error_enumerate_nth _ i Hi))
      as (a & a' & Hrow).
    cbv beta iota in Hrow. rewrite Hm, bind_Ok in Hrow.
    assert (Hjm : j < m).
    { rewrite Forall_forall in Hle.
      assert (nth i seq_lens 0 <= m) by (apply Hle, nth_In; exact Hi). lia. }
    destruct (for_each_ok_nth _ _ _ _ Hrow j _ (nth_error_range_nth m j Hjm))
      as (b & b' & Hcell).
    rewrite fill_position_lookup in Hcell.
    destruct (Nat.ltb_spec j (nth i seq_lens 0)) as [ _ | Hc]; [ | lia ].
    destruct (lookup lookup_table i j) as [idx | ]; [ | discriminate ].
    exists idx. split; [ reflexivity | ].
    apply bind_ok_inv in Hcell. destruct Hcell as (v & Hv & _).
    apply getitem2_ok_valid in Hv. apply Hv.
  - intros [Hne Hin].
    pose proof (padded_seqs_outcome feats seq_lens lookup_table) as Ho.
    destruct (Model.padded_seqs feats seq_lens lookup_table) as [seqs | e] eqn:Ep.
    + destruct Ho as (m & Hm & D0 & D1 & D2).
      exists seqs. split; [ reflexivity | ].
      apply (@create_packed_seq_unfold _ _ _ _ _ self feats seq_lens
               lookup_table seqs Ep D0).
    + exfalso. destruct Ho as [[Hnil _] | [_ Hf]]; [ congruence | ].
      exact (lookup_failure_not_in_range _ _ _ _ Hin Hf).
Qed.


(** X3: [create_packed_seq] reads the lookup table only at the positions
    inside the sequences.  Two lookup tables that agree at every
    [j < seq_lens[i]] give the same result, the same exception included. *)
Theorem create_packed_seq_reads_sequences_only
        (self : Model.FullBiLSTM) (feats : tensor2 A)
        (seq_lens : list nat) (table1 table2 : list (list Z)) :
  (forall i j, i < length seq_lens -> j < nth i seq_lens 0 ->
               lookup table1 i j = lookup table2 i j) ->
  Model.create_packed_seq self feats seq_lens table1 =
  Model.create_packed_seq self feats seq_lens table2.
Proof.
  intros Hsame.
  assert (Hp : Model.padded_seqs feats seq_lens table1 =
               Model.padded_seqs feats seq_lens table2).
  { unfold Model.padded_seqs, Model.fill_padded.
    destruct (Py.max seq_lens) as [m | e]; [ | reflexivity ].
    rewrite !bind_Ok. apply for_each_ext.
    intros [i l] acc Hin. apply in_enumerate in Hin. destruct Hin as [Hi ->].
    rewrite !bind_Ok. apply for_each_ext.
    intros j acc' _. rewrite !fill_position_lookup.
    destruct (Nat.ltb_spec j (nth i seq_lens 0)) as [Hj | Hj];
      [ | reflexivity ].
    rewrite (Hsame i j Hi Hj). reflexivity. }
  unfold Model.create_packed_seq. rewrite Hp. reflexivity.
Qed.

End PackingConditions.

Section SortedAlready.
Context {X : Type} (key : X -> nat).

Lemma insert_desc_front (x : X) (l : list X) :
  HdRel (key_ge key) x l -> insert_desc key x l = x :: l.
Proof.
  intros Hhd. destruct l as [ | y l]; [ reflexivity | ].
  simpl. inversion Hhd as [ | ? ? Hxy]; subst. unfold key_ge in Hxy.
  destruct (Nat.ltb_spec (key x) (key y)); [ lia | reflexivity ].
Qed.

(** Sorting a list that is in decreasing order of the key changes
    nothing. *)
Lemma sorted_desc_fixed (l : list X) :
  Sorted (key_ge key) l -> sorted_desc key l = l.
Proof.
  induction l as [ | x l IH]; intros Hs; [ reflexivity | ].
  inversion Hs as [ | ? ? Hl Hhd]; subst.
  simpl. rewrite (IH Hl). apply insert_desc_front. exact Hhd.
Qed.

End SortedAlready.

Lemma Sorted_map_inv {X Y} (R : Y -> Y -> Prop) (f : X -> Y) (l : list X) :
  Sorted R (map f l) -> Sorted (fun a b => R (f a) (f b)) l.
Proof.
  induction l as [ | x l IH]; intros Hs; [ constructor | ].
  simpl in Hs. inversion Hs as [ | ? ? Hl Hhd]; subst.
  constructor; [ apply IH; exact Hl | ].
  destruct l as [ | y l]; constructor.
  simpl in Hhd. inversion Hhd; assumption.
Qed.

Lemma fold_max_in (xs : list nat) (a : nat) :
  fold_left Nat.max xs a = a \/ In (fold_left Nat.max xs a) xs.
Proof.
  revert a; induction xs as [ | x xs IH]; intros a; simpl; [ left; reflexivity | ].
  destruct (IH (Nat.max a x)) as [E | Hin].
  - rewrite E. destruct (Nat.max_spec a x) as [[_ ->] | [_ ->]]; auto.
  - right; right. exact Hin.
Qed.

(** [max] returns an element of the list. *)
Lemma max_in (xs : list nat) (m : nat) : Py.max xs = Ok m -> In m xs.
Proof.
  destruct xs as [ | x xs]; simpl; intros E; inversion E.
  destruct (fold_max_in xs x) as [-> | Hin]; [ left; reflexivity | right; exact Hin ].
Qed.

Lemma sorted_ge_hd (l : list nat) (x : nat) :
  Sorted ge l -> In x l -> x <= hd 0 l.
Proof.
  intros Hs Hin. apply Sorted_StronglySorted in Hs.
  2:{ intros a b c Hab Hbc. unfold ge in *. lia. }
  destruct l as [ | a l]; [ contradiction | ]. simpl.
  inversion Hs as [ | ? ? _ Hall]; subst.
  destruct Hin as [-> | Hin]; [ lia | ].
  rewrite Forall_forall in Hall. apply Hall in Hin. unfold ge in Hin. exact Hin.
Qed.

Lemma nth_sorted_lengths (seq_lens : list nat) (r : nat) :
  r < length seq_lens ->
  nth r (sorted_desc (fun l => l) seq_lens) 0 =
  nth (nth r (Model.length_order seq_lens) 0) seq_lens 0.
Proof.
  intros Hr. rewrite <- length_order_lengths.
  rewrite nth_indep with (d' := nth 0 seq_lens 0)
    by (rewrite length_map, length_order_length; exact Hr).
  apply (map_nth (fun k => nth k seq_lens 0)).
Qed.

Section PaddedBatch.
Context {A : Type} `{Scalar A}.

(** X4: when the lengths are already in decreasing order,
    [create_packed_seq] keeps every row of the padded batch in its place
    and passes the lengths on as they are. *)
Theorem create_packed_seq_keeps_sorted_batches (seq_lens : list nat) :
  Sorted ge seq_lens ->
  Model.length_order seq_lens = range (length seq_lens) /\
  sorted_desc (fun l => l) seq_lens = seq_lens /\
  forall (seqs : tensor3 A) (r : nat),
    r < length seq_lens ->
    at3 (reordered seqs (Model.length_order seq_lens)) r = at3 seqs r.
Proof.
  intros Hs.
  assert (Ho : Model.length_order seq_lens = range (length seq_lens)).
  { unfold Model.length_order. apply sorted_desc_fixed.
    apply (Sorted_map_inv ge (fun k => nth k seq_lens 0)).
    rewrite map_nth_range. exact Hs. }
  split; [ exact Ho | ]. split.
  - apply (sorted_desc_fixed (fun l => l)). exact Hs.
  - intros seqs r Hr. simpl. rewrite Ho. unfold range.
    rewrite seq_nth by exact Hr. reflexivity.
Qed.

(** X5: the batch that [create_packed_seq] hands to
    [pack_padded_sequence] has one row per length, as many positions as its
    first and longest sequence, and holds the zero vector at every position
    after the end of a sequence. *)
Theorem create_packed_seq_batch_is_zero_padded
        (feats : tensor2 A) (seq_lens : list nat)
        (lookup_table : list (list Z)) :
  nonempty seq_lens = true ->
  valid_lookup feats seq_lens lookup_table = true ->
  exists seqs,
    Model.padded_seqs feats seq_lens lookup_table = Ok seqs /\
    let batch := reordered seqs (Model.length_order seq_lens) in
    let ordered_seq_lens := sorted_desc (fun l => l) seq_lens in
    dim0 batch = length ordered_seq_lens /\
    dim1 batch = hd 0 ordered_seq_lens /\
    Forall (fun l => l <= dim1 batch) ordered_seq_lens /\
    zero_padded batch ordered_seq_lens.
Proof.
  intros Hne Hvalid. apply nonempty_spec in Hne.
  destruct (@padded_seqs_ok _ _ feats seq_lens lookup_table Hvalid Hne)
    as (m & seqs & Hm & Hle & Hp & D0 & D1 & D2 & Hcells).
  exists seqs. split; [ exact Hp | ]. cbv zeta.
  assert (Hall : Forall (fun l => l <= m) (sorted_desc (fun l => l) seq_lens)).
  { rewrite Forall_forall in *. intros l Hin. apply Hle.
    apply (Permutation_in _ (sorted_desc_perm (fun l => l) seq_lens)).
    exact Hin. }
  split; [ | split; [ | split ] ].
  - simpl. rewrite sorted_desc_length, length_order_length. reflexivity.
  - simpl. rewrite D1. apply Nat.le_antisymm.
    + apply sorted_ge_hd.
      * apply (sorted_desc_sorted (fun l => l)).
      * apply (Permutation_in _ (Permutation_sym
                                   (sorted_desc_perm (fun l => l) seq_lens))).
        apply max_in. exact Hm.
    + apply sorted_lengths_bound. exact Hle.
  - simpl. rewrite D1. exact Hall.
  - intros k p d Hk Hp' Hd. simpl in *.
    rewrite sorted_desc_length in Hk.
    rewrite (nth_sorted_lengths seq_lens k Hk) in Hp'.
    set (i := nth k (Model.length_order seq_lens) 0) in *.
    assert (Hi : i < length seq_lens).
    { apply length_order_bound. apply nth_In.
      rewrite length_order_length. exact Hk. }
    assert (Hpm : p < m) by lia.
    pose proof (Hcells i p Hi Hpm) as Hcell. unfold cell_spec in Hcell.
    destruct (Nat.ltb_spec p (nth i seq_lens 0)) as [Hc | _]; [ lia | ].
    apply Hcell.
Qed.

End PaddedBatch.

(* ================================================================== *)
(** * Further properties of [LSTMLosses.forward]                       *)
(* ================================================================== *)

Section TensorInversions.
Context {A : Type} `{Scalar A}.





End TensorInversions.

Section LikelihoodNeeds.
Context {A : Type} `{Scalar A} `{Packing A}.



End LikelihoodNeeds.

Section LikelihoodReturns.
Context {A : Type} `{Scalar A} `{Packing A}.





End LikelihoodReturns.

Section HiddenPadding.
Context {A : Type} `{Scalar A} `{Packing A}.

Lemma dotp_ext (n : nat) (u u' v : nat -> A) :
  (forall d, d < n -> u d = u' d) ->
  Formulas.dotp n u v = Formulas.dotp n u' v.
Proof.
  intros Hu. unfold Formulas.dotp. apply sum_n_ext.
  intros d Hd. rewrite (Hu d Hd). reflexivity.
Qed.

Lemma normaliser_ext (x : tensor3 A) (seq_lens : list nat) (h h' : nat -> A) :
  (forall d, d < dim2 x -> h d = h' d) ->
  Formulas.normaliser x seq_lens h = Formulas.normaliser x seq_lens h'.
Proof.
  intros Hh. unfold Formulas.normaliser.
  apply sum_n_ext. intros k _. apply sum_n_ext. intros p _.
  f_equal. apply dotp_ext. exact Hh.
Qed.

Lemma seq_nll_ext (seq_lens : list nat) (prob prob' : nat -> nat -> A)
      (i : nat) :
  (forall j, j < nth i seq_lens 0 -> prob i j = prob' i j) ->
  Formulas.seq_nll seq_lens prob i = Formulas.seq_nll seq_lens prob' i.
Proof.
  intros Hp. unfold Formulas.seq_nll.
  rewrite (sum_n_ext (prob i) (prob' i) Hp). reflexivity.
Qed.

(** The value of [forward], once the loop over the sequences is known. *)
Lemma forward_value (self : Losses.LSTMLosses.t)
      (packed_feats : PackedSequence) (hidden feats : tensor3 A)
      (seq_lens : list nat) :
  pad_packed_sequence packed_feats (Losses.LSTMLosses.batch_first self) =
    Ok (feats, seq_lens) ->
  lstm_shapes feats hidden seq_lens = true ->
  Losses.LSTMLosses.forward self packed_feats hidden =
  Ok (Formulas.likelihood_losses feats hidden seq_lens).
Proof.
  intros Hpad Hs. unfold Losses.LSTMLosses.forward.
  rewrite Hpad, bind_Ok, (sequences_loop_ok feats hidden seq_lens Hs).
  reflexivity.
Qed.

(** X7: the losses depend on the hidden states only at the timesteps
    inside the sequences.  Two tensors of hidden states that agree at every
    [j < seq_lens[i]] give the same pair of losses, whatever they hold at
    the padded timesteps. *)
Theorem LSTMLosses_forward_ignores_padded_hidden
        (self : Losses.LSTMLosses.t) (packed_feats : PackedSequence)
        (feats hidden1 hidden2 : tensor3 A) (seq_lens : list nat) :
  pad_packed_sequence packed_feats (Losses.LSTMLosses.batch_first self) =
    Ok (feats, seq_lens) ->
  lstm_shapes feats hidden1 seq_lens = true ->
  lstm_shapes feats hidden2 seq_lens = true ->
  (forall i j d, i < length seq_lens -> j < nth i seq_lens 0 ->
                 d < 2 * dim2 feats ->
                 at3 hidden1 i j d = at3 hidden2 i j d) ->
  Losses.LSTMLosses.forward self packed_feats hidden1 =
  Losses.LSTMLosses.forward self packed_feats hidden2.
Proof.
  intros Hpad Hs1 Hs2 Hsame.
  rewrite (forward_value self packed_feats hidden1 feats seq_lens Hpad Hs1).
  rewrite (forward_value self packed_feats hidden2 feats seq_lens Hpad Hs2).
  pose proof (half_hidden feats hidden1 seq_lens Hs1) as Hh1.
  pose proof (half_hidden feats hidden2 seq_lens Hs2) as Hh2.
  assert (Hfw : forall i j, i < length seq_lens -> j < nth i seq_lens 0 ->
            Formulas.fw_prob feats hidden1 seq_lens i j =
            Formulas.fw_prob feats hidden2 seq_lens i j).
  { intros i j Hi Hj. unfold Formulas.fw_prob.
    assert (Hrow : forall d, d < dim2 feats ->
              Formulas.h_fw hidden1 i j d = Formulas.h_fw hidden2 i j d).
    { intros d Hd. unfold Formulas.h_fw. apply Hsame; try assumption. lia. }
    rewrite (dotp_ext _ _ _ _ Hrow), (normaliser_ext _ _ _ _ Hrow).
    reflexivity. }
  assert (Hbw : forall i j, i < length seq_lens -> j < nth i seq_lens 0 ->
            Formulas.bw_prob feats hidden1 seq_lens i j =
            Formulas.bw_prob feats hidden2 seq_lens i j).
  { intros i j Hi Hj. unfold Formulas.bw_prob.
    assert (Hrow : forall d, d < dim2 feats ->
              Formulas.h_bw hidden1 i j d = Formulas.h_bw hidden2 i j d).
    { intros d Hd. unfold Formulas.h_bw. rewrite Hh1, Hh2.
      apply Hsame; try assumption. lia. }
    rewrite (dotp_ext _ _ _ _ Hrow), (normaliser_ext _ _ _ _ Hrow).
    reflexivity. }
  unfold Formulas.likelihood_losses, Formulas.batch_mean.
  f_equal. f_equal; f_equal; apply sum_n_ext; intros i Hi;
    apply seq_nll_ext; intros j Hj; auto.
Qed.

End HiddenPadding.

(** ** Over the real numbers *)

Module RealLikelihood.

Import Reference.


Lemma sum_n_nonneg (n : nat) (f : nat -> R) :
  (forall k, k < n -> (0 <= f k)%R) -> (0 <= sum_n n f)%R.
Proof.
  induction n as [ | n IH]; intros Hf.
  - unfold sum_n. simpl. lra.
  - rewrite sum_n_S. cbn [add R_Scalar].
    assert (0 <= sum_n n f)%R by (apply IH; intros; apply Hf; lia).
    assert (0 <= f n)%R by (apply Hf; lia). lra.
Qed.

Lemma sum_n_term (n k0 : nat) (f : nat -> R) :
  (forall k, k < n -> (0 <= f k)%R) -> k0 < n -> (f k0 <= sum_n n f)%R.
Proof.
  induction n as [ | n IH]; intros Hf Hk; [ lia | ].
  rewrite sum_n_S. cbn [add R_Scalar].
  assert (Hn : (0 <= f n)%R) by (apply Hf; lia).
  assert (Hs : (0 <= sum_n n f)%R)
    by (apply sum_n_nonneg; intros; apply Hf; lia).
  destruct (Nat.eq_dec k0 n) as [-> | Hne]; [ lra | ].
  assert (f k0 <= sum_n n f)%R by (apply IH; [ intros; apply Hf | ]; lia).
  lra.
Qed.




End RealLikelihood.

(* ================================================================== *)
(** * Further properties of [ContrastiveLoss.forward]                  *)
(* ================================================================== *)

Section ContrastiveShapes.
Context {A : Type} `{Scalar A} `{Distance A}.

(** The value of the loss for one label per distance. *)
Lemma contrastive_value (self : Losses.ContrastiveLoss.t A)
      (output1 output2 : tensor2 A) (label d : tensor1 A) :
  pairwise_distance output1 output2 = Ok d ->
  size1 label = size1 d ->
  Losses.ContrastiveLoss.forward self output1 output2 label =
  Ok (Formulas.contrastive (Losses.ContrastiveLoss.margin self)
                           (size1 d) (at1 label) (at1 d)).
Proof.
  intros Hd Hl. unfold Losses.ContrastiveLoss.forward.
  rewrite Hd, bind_Ok.
  rewrite broadcast1_same by exact Hl. rewrite bind_Ok.
  rewrite broadcast1_same by exact Hl. rewrite bind_Ok.
  rewrite broadcast1_same by reflexivity. rewrite bind_Ok.
  unfold ret, mean1, sum1. cbn [size1 at1 map1]. rewrite Hl.
  reflexivity.
Qed.

Lemma broadcast1_left_one (op : A -> A -> A) (u v : tensor1 A) :
  size1 u = 1 ->
  exists w, broadcast1 op u v = Ok w /\ size1 w = size1 v /\
            forall k, k < size1 v -> at1 w k = op (at1 u 0) (at1 v k).
Proof.
  intros Hu. unfold broadcast1.
  destruct (Nat.eqb_spec (size1 u) (size1 v)) as [E | E].
  - eexists. split; [ reflexivity | ]. simpl. split; [ exact E | ].
    intros k Hk. assert (k = 0) by lia. subst k. reflexivity.
  - rewrite Hu. simpl. eexists. split; [ reflexivity | ]. simpl. auto.
Qed.

Lemma broadcast1_mismatch (op : A -> A -> A) (u v : tensor1 A) :
  size1 u <> size1 v -> size1 u <> 1 -> size1 v <> 1 ->
  broadcast1 op u v = Err size_mismatch.
Proof.
  intros H1 H2 H3. unfold broadcast1.
  destruct (Nat.eqb_spec (size1 u) (size1 v)); [ contradiction | ].
  destruct (Nat.eqb_spec (size1 u) 1); [ contradiction | ].
  destruct (Nat.eqb_spec (size1 v) 1); [ contradiction | ].
  reflexivity.
Qed.

(** X9: a label tensor with a single entry is broadcast: the loss is the
    one of the batch in which every pair carries that label. *)
Theorem ContrastiveLoss_forward_broadcasts_single_label
        (self : Losses.ContrastiveLoss.t A) (output1 output2 : tensor2 A)
        (label d : tensor1 A) :
  pairwise_distance output1 output2 = Ok d ->
  size1 label = 1 ->
  Losses.ContrastiveLoss.forward self output1 output2 label =
  Ok (Formulas.contrastive (Losses.ContrastiveLoss.margin self)
                           (size1 d) (fun _ => at1 label 0) (at1 d)).
Proof.
  intros Hd Hl. unfold Losses.ContrastiveLoss.forward.
  rewrite Hd, bind_Ok.
  destruct (broadcast1_left_one mul (map1 (sub one) label)
              (map1 (fun x => pow x 2) d) Hl) as (s & Es & Ss & Hs).
  rewrite Es, bind_Ok.
  destruct (broadcast1_left_one mul label
              (map1 (fun x => pow x 2)
                 (map1 (fun x => clamp_min x zero)
                    (map1 (sub (Losses.ContrastiveLoss.margin self)) d))) Hl)
    as (t & Et & St & Ht).
  rewrite Et, bind_Ok.
  simpl in Ss, St, Hs, Ht.
  rewrite (broadcast1_same add s t) by congruence. rewrite bind_Ok.
  unfold ret, mean1, sum1, Formulas.contrastive. cbn [size1 at1].
  rewrite Ss. f_equal. f_equal. apply sum_n_ext.
  intros k Hk. rewrite (Hs k Hk), (Ht k Hk). reflexivity.
Qed.

(** X10: when the number of distances is not one, a label tensor whose
    length is neither the number of distances nor one makes the loss raise
    the size mismatch of the first product. *)
Theorem ContrastiveLoss_forward_label_mismatch
        (self : Losses.ContrastiveLoss.t A) (output1 output2 : tensor2 A)
        (label d : tensor1 A) :
  pairwise_distance output1 output2 = Ok d ->
  size1 label <> size1 d -> size1 label <> 1 -> size1 d <> 1 ->
  Losses.ContrastiveLoss.forward self output1 output2 label =
  Err size_mismatch.
Proof.
  intros Hd H1 H2 H3. unfold Losses.ContrastiveLoss.forward.
  rewrite Hd, bind_Ok.
  rewrite broadcast1_mismatch by assumption. reflexivity.
Qed.

End ContrastiveShapes.

Module RealContrastive.

Import Reference.

Section RealContrastive.
Context `{Distance R}.

Lemma term_nonneg (margin l d : R) :
  (0 <= l <= 1)%R -> (0 <= Formulas.contrastive_term margin l d)%R.
Proof.
  intros Hl. unfold Formulas.contrastive_term. cbn.
  assert (0 <= d * (d * 1))%R by nra.
  assert (0 <= Rmax (margin - d) 0 * (Rmax (margin - d) 0 * 1))%R by nra.
  nra.
Qed.

Lemma term_zero_iff (margin l d : R) :
  l = 0%R \/ l = 1%R ->
  Formulas.contrastive_term margin l d = 0%R <->
  (l = 0%R /\ d = 0%R) \/ (l = 1%R /\ (margin <= d)%R).
Proof.
  intros Hl. unfold Formulas.contrastive_term. cbn.
  pose proof (Rmax_l (margin - d) 0) as Hm1.
  pose proof (Rmax_r (margin - d) 0) as Hm2.
  split.
  - intros E. destruct Hl as [-> | ->].
    + left. split; [ reflexivity | ]. nra.
    + right. split; [ reflexivity | ]. nra.
  - intros [[-> ->] | [-> Hd]].
    + ring.
    + rewrite Rmax_right by lra. ring.
Qed.

Lemma sum_n_all_zero (n : nat) (f : nat -> R) :
  (forall k, k < n -> (0 <= f k)%R) ->
  sum_n n f = 0%R <-> forall k, k < n -> f k = 0%R.
Proof.
  intros Hf. split.
  - intros E k Hk.
    pose proof (RealLikelihood.sum_n_term n k f Hf Hk) as Hle.
    specialize (Hf k Hk). lra.
  - intros Hz. induction n as [ | n IH]; [ reflexivity | ].
    rewrite sum_n_S. cbn [add R_Scalar].
    rewrite IH, Hz by (intros; auto). lra.
Qed.

(** X11: over the real numbers, for labels between 0 and 1 the contrastive
    loss of a non-empty batch is not negative, whatever the distances and
    the margin are. *)
Theorem ContrastiveLoss_forward_nonnegative
        (self : Losses.ContrastiveLoss.t R) (output1 output2 : tensor2 R)
        (label d : tensor1 R) :
  pairwise_distance output1 output2 = Ok d ->
  size1 label = size1 d -> 0 < size1 d ->
  (forall i, i < size1 d -> (0 <= at1 label i <= 1)%R) ->
  exists loss,
    Losses.ContrastiveLoss.forward self output1 output2 label = Ok loss /\
    (0 <= loss)%R.
Proof.
  intros Hd Hl Hn Hlab. eexists. split.
  - exact (contrastive_value self output1 output2 label d Hd Hl).
  - unfold Formulas.contrastive. cbn [div R_Scalar of_nat].
    apply Rmult_le_pos.
    + apply RealLikelihood.sum_n_nonneg. intros i Hi.
      apply term_nonneg. apply Hlab. exact Hi.
    + left. apply Rinv_0_lt_compat. apply lt_0_INR. exact Hn.
Qed.

(** X12: over the real numbers, with every label 0 or 1 and a non-empty
    batch, the contrastive loss is zero exactly when every pair labelled 0
    is at distance zero and every pair labelled 1 is at least the margin
    apart. *)
Theorem ContrastiveLoss_forward_zero_iff
        (self : Losses.ContrastiveLoss.t R) (output1 output2 : tensor2 R)
        (label d : tensor1 R) :
  pairwise_distance output1 output2 = Ok d ->
  size1 label = size1 d -> 0 < size1 d ->
  (forall i, i < size1 d -> at1 label i = 0%R \/ at1 label i = 1%R) ->
  exists loss,
    Losses.ContrastiveLoss.forward self output1 output2 label = Ok loss /\
    (loss = 0%R <->
     forall i, i < size1 d ->
       (at1 label i = 0%R /\ at1 d i = 0%R) \/
       (at1 label i = 1%R /\
        (Losses.ContrastiveLoss.margin self <= at1 d i)%R)).
Proof.
  intros Hd Hl Hn Hlab. eexists. split.
  - exact (contrastive_value self output1 output2 label d Hd Hl).
  - unfold Formulas.contrastive. cbn [div R_Scalar of_nat].
    set (m := Losses.ContrastiveLoss.margin self).
    set (S := sum_n (size1 d)
                (fun i => Formulas.contrastive_term m (at1 label i) (at1 d i))).
    assert (Hpos : (0 < INR (size1 d))%R) by (apply lt_0_INR; exact Hn).
    assert (Hterms : forall k, k < size1 d ->
              (0 <= Formulas.contrastive_term m (at1 label k) (at1 d k))%R).
    { intros k Hk. apply term_nonneg.
      destruct (Hlab k Hk) as [-> | ->]; lra. }
    assert (HS : (S / INR (size1 d))%R = 0%R <-> S = 0%R).
    { split; intros E.
      - apply Rmult_eq_reg_r with (r := (/ INR (size1 d))%R).
        + rewrite Rmult_0_l. exact E.
        + apply Rinv_neq_0_compat. lra.
      - rewrite E. unfold Rdiv. ring. }
    rewrite HS. unfold S. rewrite (sum_n_all_zero _ _ Hterms).
    split; intros Hall i Hi.
    + apply term_zero_iff; [ apply Hlab; exact Hi | apply Hall; exact Hi ].
    + apply term_zero_iff; [ apply Hlab; exact Hi | apply Hall; exact Hi ].
Qed.

End RealContrastive.

End RealContrastive.

(* ================================================================== *)
(** * Properties of [create_random_packed_seq]                         *)
(* ================================================================== *)

Section RandomDraws.
Context {A : Type} `{Scalar A} `{Random A}.

(** Drawing [a + b] numbers is drawing [a] and then [b]. *)
Lemma draws_add (a b : nat) (g : generator) :
  draws (a + b) g =
  (fst (draws a g) ++ fst (draws b (snd (draws a g))),
   snd (draws b (snd (draws a g)))).
Proof.
  revert g; induction a as [ | a IH]; intros g; simpl.
  - destruct (draws b g); reflexivity.
  - destruct (draw g) as [x g1]. rewrite IH.
    destruct (draws a g1) as [xs g2]. simpl.
    destruct (draws b g2); reflexivity.
Qed.

Lemma draws_length (n : nat) (g : generator) : length (fst (draws n g)) = n.
Proof.
  revert g; induction n as [ | n IH]; intros g; simpl; [ reflexivity | ].
  destruct (draw g) as [x g1]. specialize (IH g1).
  destruct (draws n g1) as [xs g2]. simpl in *. congruence.
Qed.

Lemma randn2_generator (r c : nat) (g : generator) :
  snd (randn2 r c g) = snd (draws (r * c) g).
Proof. unfold randn2. destruct (draws (r * c) g). reflexivity. Qed.

Lemma randn2_shape (r c : nat) (g : generator) :
  rows2 (fst (randn2 r c g)) = r /\ cols2 (fst (randn2 r c g)) = c.
Proof. unfold randn2. destruct (draws (r * c) g). simpl. auto. Qed.

End RandomDraws.

Section RandomPackedSeq.
Context {A : Type} `{Scalar A} `{Packing A} `{Random A}.

Lemma random_seqs_generator (data_dim : nat) (seq_lens : list nat)
      (g : generator) :
  snd (UseModel.random_seqs data_dim seq_lens g) =
  snd (draws (data_dim * list_sum seq_lens) g).
Proof.
  revert g; induction seq_lens as [ | sl rest IH]; intros g; simpl.
  - rewrite Nat.mul_0_r. reflexivity.
  - pose proof (randn2_generator data_dim sl g) as Hg.
    destruct (randn2 data_dim sl g) as [s g1]. simpl in Hg. subst g1.
    specialize (IH (snd (draws (data_dim * sl) g))).
    destruct (UseModel.random_seqs data_dim rest _) as [ss g2].
    simpl in *. rewrite Nat.mul_add_distr_l, draws_add. simpl. exact IH.
Qed.

Lemma random_seqs_shape (data_dim : nat) (seq_lens : list nat)
      (g : generator) :
  Forall2 (fun s sl => rows2 s = data_dim /\ cols2 s = sl)
          (fst (UseModel.random_seqs data_dim seq_lens g)) seq_lens.
Proof.
  revert g; induction seq_lens as [ | sl rest IH]; intros g; simpl.
  - constructor.
  - pose proof (randn2_shape data_dim sl g) as Hs.
    destruct (randn2 data_dim sl g) as [s g1]. simpl in Hs.
    specialize (IH g1).
    destruct (UseModel.random_seqs data_dim rest g1) as [ss g2].
    simpl in *. constructor; assumption.
Qed.

Lemma Forall2_In_l {X Y} (P : X -> Y -> Prop) (xs : list X) (ys : list Y)
      (x : X) :
  Forall2 P xs ys -> In x xs -> exists y, In y ys /\ P x y.
Proof.
  induction 1 as [ | x0 y0 xs ys Hp _ IH]; intros Hin; [ destruct Hin | ].
  destruct Hin as [<- | Hin].
  - exists y0. split; [ left; reflexivity | exact Hp ].
  - destruct (IH Hin) as (y & Hy & Hxy). exists y. split; [ right | ]; auto.
Qed.

Lemma Forall2_nth {X Y} (P : X -> Y -> Prop) (xs : list X) (ys : list Y)
      (dx : X) (dy : Y) (i : nat) :
  Forall2 P xs ys -> i < length ys -> P (nth i xs dx) (nth i ys dy).
Proof.
  intros Hall. revert i.
  induction Hall as [ | x0 y0 xs ys Hp _ IH]; intros i Hi; simpl in Hi.
  - lia.
  - destruct i as [ | i]; simpl; [ exact Hp | apply IH; lia ].
Qed.

(** The sequence [seq], with zero columns after it up to [m] columns. *)
Definition padded_to (m data_dim : nat) (seq : tensor2 A) : tensor2 A :=
  if cols2 seq <? m then
    T2 (rows2 seq) (cols2 seq + (m - cols2 seq))
       (fun r c => if c <? cols2 seq then at2 seq r c
                   else at2 (zeros2 data_dim (m - cols2 seq)) r
                            (c - cols2 seq))
  else seq.

Lemma pad_seq_ok (data_dim m : nat) (seq_lens : list nat) (seq : tensor2 A)
      (t_seqs : list (tensor2 A)) :
  Py.max seq_lens = Ok m -> rows2 seq = data_dim ->
  UseModel.pad_seq data_dim seq_lens seq t_seqs =
  Ok (t_seqs ++ [padded_to m data_dim seq]).
Proof.
  intros Hm Hr. unfold UseModel.pad_seq, padded_to.
  rewrite Hm, bind_Ok.
  destruct (cols2 seq <? m); [ | reflexivity ].
  rewrite bind_Ok. unfold cat2_axis1. simpl.
  apply Nat.eqb_eq in Hr. rewrite Hr. reflexivity.
Qed.

Lemma fold_left_snoc {X Y} (f : X -> Y) (l : list X) (acc : list Y) :
  fold_left (fun a x => a ++ [f x]) l acc = acc ++ map f l.
Proof.
  revert acc; induction l as [ | x l IH]; intros acc; simpl.
  - symmetry. apply app_nil_r.
  - rewrite IH, <- app_assoc. reflexivity.
Qed.

Lemma padded_to_shape (m data_dim sl : nat) (seq : tensor2 A) :
  rows2 seq = data_dim -> cols2 seq = sl -> sl <= m ->
  rows2 (padded_to m data_dim seq) = data_dim /\
  cols2 (padded_to m data_dim seq) = m /\
  forall r c, c < m ->
    at2 (padded_to m data_dim seq) r c =
    if c <? sl then at2 seq r c else zero.
Proof.
  intros Hr Hc Hle. unfold padded_to. rewrite Hc.
  destruct (Nat.ltb_spec sl m) as [Hlt | Hge]; simpl.
  - split; [ exact Hr | ]. split; [ lia | ]. intros r c _.
    destruct (c <? sl); reflexivity.
  - split; [ exact Hr | ]. split; [ lia | ]. intros r c Hcm.
    destruct (Nat.ltb_spec c sl); [ reflexivity | lia ].
Qed.

Lemma stack2_ok (ts : list (tensor2 A)) (r c : nat) :
  ts <> [] -> Forall (fun t => rows2 t = r /\ cols2 t = c) ts ->
  exists t3, stack2 ts = Ok t3 /\
             dim0 t3 = length ts /\ dim1 t3 = r /\ dim2 t3 = c /\
             forall d i, i < length ts -> at3 t3 i = at2 (nth i ts d).
Proof.
  intros Hne Hall. destruct ts as [ | t0 ts']; [ congruence | ].
  unfold stack2.
  replace (forallb (fun t => (rows2 t =? rows2 t0) && (cols2 t =? cols2 t0))
                   (t0 :: ts')) with true.
  - inversion Hall as [ | ? ? [Hr0 Hc0] _]; subst.
    eexists. split; [ reflexivity | ]. simpl.
    repeat split; try reflexivity.
    intros d i Hi. f_equal.
    exact (nth_indep (t0 :: ts') t0 d Hi).
  - symmetry. apply forallb_forall. intros t Hin.
    rewrite Forall_forall in Hall.
    destruct (Hall t Hin) as [Hr Hc].
    destruct (Hall t0 (or_introl eq_refl)) as [Hr0 Hc0].
    apply andb_true_iff. split; apply Nat.eqb_eq; congruence.
Qed.

(** X13: [create_random_packed_seq] raises the [RuntimeError] of
    [torch.stack] for an empty list of lengths, without drawing a number.
    For any other list it hands to [pack_padded_sequence], batch first and
    with the lengths in the order given, a batch with one row per length,
    [max(seq_lens)] positions and [data_dim] features: row [i] holds the
    transposed random matrix of sequence [i] at its first [seq_lens[i]]
    positions and zero vectors after them. *)
Theorem create_random_packed_seq_pads
        (data_dim : nat) (seq_lens : list nat) (g : generator) :
  (seq_lens = [] /\
   UseModel.create_random_packed_seq data_dim seq_lens g =
     (Err empty_cat, g)) \/
  (exists m t_seqs,
      Py.max seq_lens = Ok m /\
      fst (UseModel.create_random_packed_seq data_dim seq_lens g) =
        pack_padded_sequence t_seqs seq_lens true /\
      dim0 t_seqs = length seq_lens /\ dim1 t_seqs = m /\
      dim2 t_seqs = data_dim /\
      forall i j k, i < length seq_lens -> j < m ->
        at3 t_seqs i j k =
        if j <? nth i seq_lens 0
        then at2 (nth i (fst (UseModel.random_seqs data_dim seq_lens g))
                      (zeros2 0 0)) k j
        else zero).
Proof.
  destruct seq_lens as [ | l0 ls] eqn:El; [ left; split; reflexivity | ].
  right. rewrite <- El.
  assert (Hne : seq_lens <> []) by (rewrite El; discriminate).
  clear El l0 ls.
  destruct (max_ok Hne) as (m & Hm & Hle).
  pose proof (random_seqs_shape data_dim seq_lens g) as Hshape.
  unfold UseModel.create_random_packed_seq.
  destruct (UseModel.random_seqs data_dim seq_lens g) as [seqs g'] eqn:Er.
  cbn [fst] in *.
  assert (Hlen : length seqs = length seq_lens)
    by (apply (Forall2_length Hshape)).
  assert (Hloop : for_each seqs [] (UseModel.pad_seq data_dim seq_lens) =
                  Ok (map (padded_to m data_dim) seqs)).
  { rewrite (for_each_fold
               (fun acc seq => acc ++ [padded_to m data_dim seq])).
    - rewrite fold_left_snoc. reflexivity.
    - intros seq acc Hin. apply pad_seq_ok; [ exact Hm | ].
      destruct (Forall2_In_l _ _ _ _ Hshape Hin) as (sl & _ & Hr & _). exact Hr. }
  assert (Hnth : forall i, i < length seq_lens ->
            rows2 (nth i seqs (zeros2 0 0)) = data_dim /\
            cols2 (nth i seqs (zeros2 0 0)) = nth i seq_lens 0).
  { intros i Hi.
    exact (Forall2_nth _ _ _ (zeros2 0 0) 0 i Hshape Hi). }
  assert (Hall : Forall (fun t => rows2 t = data_dim /\ cols2 t = m)
                        (map (padded_to m data_dim) seqs)).
  { apply Forall_forall. intros t Hin. apply in_map_iff in Hin.
    destruct Hin as (s & <- & Hin).
    destruct (Forall2_In_l _ _ _ _ Hshape Hin) as (sl & Hsl & Hr & Hc).
    rewrite Forall_forall in Hle.
    destruct (padded_to_shape m data_dim sl s Hr Hc (Hle sl Hsl))
      as (R & C & _). auto. }
  destruct (stack2_ok (map (padded_to m data_dim) seqs) data_dim m)
    as (t3 & Es & D0 & D1 & D2 & Hat).
  { intros E. apply (f_equal (@length _)) in E. rewrite length_map in E.
    simpl in E. destruct seq_lens; [ congruence | simpl in Hlen; lia ]. }
  { exact Hall. }
  exists m, (permute021 t3). split; [ exact Hm | ].
  split; [ rewrite Hloop, bind_Ok, Es, bind_Ok; reflexivity | ].
  rewrite length_map in D0, Hat.
  simpl. split; [ congruence | ]. split; [ exact D2 | ].
  split; [ exact D1 | ].
  intros i j k Hi Hj.
  rewrite (Hat (padded_to m data_dim (zeros2 0 0)) i) by lia.
  rewrite (map_nth (padded_to m data_dim)).
  destruct (Hnth i Hi) as [Hr Hc].
  rewrite Forall_forall in Hle.
  assert (Hsl : nth i seq_lens 0 <= m) by (apply Hle, nth_In; exact Hi).
  destruct (padded_to_shape m data_dim _ _ Hr Hc Hsl) as (_ & _ & Hcell).
  apply Hcell. exact Hj.
Qed.

(** X14: [create_random_packed_seq] draws [data_dim * sl] random numbers
    for every length [sl], and none for the padding. *)
Theorem create_random_packed_seq_draws
        (data_dim : nat) (seq_lens : list nat) (g : generator) :
  snd (UseModel.create_random_packed_seq data_dim seq_lens g) =
  snd (draws (data_dim * list_sum seq_lens) g).
Proof.
  unfold UseModel.create_random_packed_seq.
  pose proof (random_seqs_generator data_dim seq_lens g) as Hg.
  destruct (UseModel.random_seqs data_dim seq_lens g) as [seqs g'].
  exact Hg.
Qed.

End RandomPackedSeq.

(* ================================================================== *)
(** * The image features of [FullBiLSTM.forward]                       *)
(* ================================================================== *)

Section FeatureWidth.
Context {A : Type} `{Scalar A} `{Packing A} `{Random A} `{Vision A}.
Context `{!Recurrent A}.

(** X15: in a model built by [FullBiLSTM.__init__], [self.cnn(images)]
    returns whenever the CNN delivers pooled features that are 2048 wide,
    with one row of [input_dim] features per image and the auxiliary
    output unchanged; when the pooled features have another width,
    [forward] raises the [RuntimeError] of the size mismatch whatever its
    other arguments are, before any sequence is packed. *)
Theorem forward_needs_2048_pooled_features
        (input_dim hidden_dim : nat) (batch_first : bool) (dropout : A)
        (g : generator) (images : image_batch) (pooled aux : tensor2 A) :
  inception_trunk images = Ok (pooled, aux) ->
  if cols2 pooled =? 2048 then
    exists feats,
      Model.Inception_forward
        (Model.cnn
           (fst (Model.init input_dim hidden_dim batch_first dropout g)))
        images = Ok (feats, aux) /\
      rows2 feats = rows2 pooled /\ cols2 feats = input_dim
  else
    forall seq_lens lookup_table hidden,
      Model.forward
        (fst (Model.init input_dim hidden_dim batch_first dropout g))
        images seq_lens lookup_table hidden = Err size_mismatch.
Proof.
  intros Et.
  destruct (init_fields input_dim hidden_dim batch_first dropout g)
    as (_ & _ & _ & Ec & _).
  destruct (Linear_new_shape 2048 input_dim g) as (_ & _ & Wr & Wc & Bs).
  rewrite <- Ec in Wr, Wc, Bs.
  destruct (cols2 pooled =? 2048) eqn:Ew.
  - unfold Model.Inception_forward. rewrite Et, bind_Ok.
    unfold Linear_forward, mm.
    cbn [permute10 rows2 cols2]. rewrite Wc, Ew, bind_Ok.
    cbn [rows2 cols2]. rewrite Wr, Bs, Nat.eqb_refl.
    eexists. split; [ reflexivity | ]. simpl. auto.
  - intros seq_lens lookup_table hidden.
    unfold Model.forward, Model.Inception_forward. rewrite Et, bind_Ok.
    unfold Linear_forward, mm.
    cbn [permute10 rows2 cols2]. rewrite Wc, Ew. reflexivity.
Qed.

End FeatureWidth.

(* ================================================================== *)
(** * Instances of the further properties                              *)
(* ================================================================== *)

Module Instances.

Import Reference.
Import RealFacts.

(** The model, the features and the sequences of [Witnesses]. *)
Definition model : Model.FullBiLSTM := Witnesses.model.
Definition feats : tensor2 R := Witnesses.feats.


(** The lookup table of [Witnesses], and the same table with entries
    after the end of each sequence. *)
Definition short_table : list (list Z) := [[0%Z]; [1%Z; (-1)%Z]].
Definition long_table : list (list Z) :=
  [[0%Z; 7%Z; 9%Z]; [1%Z; (-1)%Z; 100%Z]].

Lemma tables_agree (i j : nat) :
  i < length [1; 2] -> j < nth i [1; 2] 0 ->
  lookup short_table i j = lookup long_table i j.
Proof.
  intros Hi Hj.
  destruct i as [ | [ | i]]; simpl in Hi, Hj; [ | | lia ].
  - destruct j as [ | j]; [ reflexivity | lia ].
  - destruct j as [ | [ | j]]; [ reflexivity | reflexivity | lia ].
Defined.

Lemma create_packed_seq_reads_sequences_only_witness :
  (forall i j, i < length [1; 2] -> j < nth i [1; 2] 0 ->
               lookup short_table i j = lookup long_table i j) /\
  Model.create_packed_seq model feats [1; 2] short_table =
  Model.create_packed_seq model feats [1; 2] long_table.
Proof.
  split; [ exact tables_agree | ].
  exact (create_packed_seq_reads_sequences_only
           model feats [1; 2] short_table long_table tables_agree).
Defined.

Lemma sorted_2_1 : Sorted ge [2; 1].
Proof. repeat constructor. Defined.

Lemma create_packed_seq_keeps_sorted_batches_witness :
  Sorted ge [2; 1] /\
  Model.length_order [2; 1] = range (length [2; 1]) /\
  sorted_desc (fun l => l) [2; 1] = [2; 1] /\
  forall (seqs : tensor3 R) (r : nat),
    r < length [2; 1] ->
    at3 (reordered seqs (Model.length_order [2; 1])) r = at3 seqs r.
Proof.
  split; [ exact sorted_2_1 | ].
  exact (create_packed_seq_keeps_sorted_batches [2; 1] sorted_2_1).
Defined.

Lemma create_packed_seq_batch_is_zero_padded_witness :
  nonempty [1; 2] = true /\
  valid_lookup feats [1; 2] short_table = true /\
  exists seqs,
    Model.padded_seqs feats [1; 2] short_table = Ok seqs /\
    dim1 (reordered seqs (Model.length_order [1; 2])) = 2 /\
    zero_padded (reordered seqs (Model.length_order [1; 2])) [2; 1].
Proof.
  split; [ reflexivity | ]. split; [ reflexivity | ].
  destruct (create_packed_seq_batch_is_zero_padded
              feats [1; 2] short_table eq_refl eq_refl)
    as (seqs & Hp & _ & Hd & _ & Hz).
  exists seqs. split; [ exact Hp | ]. split; [ exact Hd | exact Hz ].
Defined.

(** The one-step sequence of [Witnesses], and hidden states for a batch
    padded to two timesteps that differ from it at the padded one. *)
Definition losses : Losses.LSTMLosses.t := Witnesses.losses.
Definition one_step : tensor3 R := Witnesses.one_step.
Definition one_hidden : tensor3 R := Witnesses.one_hidden.
Definition one_packed : @PackedSequence R Packed_Packing :=
  Witnesses.one_packed.
Definition long_hidden : tensor3 R :=
  T3 1 2 2 (fun _ j _ => if j <? 1 then 1%R else 7%R).


Lemma hidden_agree (i j d : nat) :
  i < length [1] -> j < nth i [1] 0 -> d < 2 * dim2 one_step ->
  at3 one_hidden i j d = at3 long_hidden i j d.
Proof.
  intros Hi Hj _.
  destruct i as [ | i]; simpl in Hi, Hj; [ | lia ].
  destruct j as [ | j]; [ reflexivity | lia ].
Defined.

Lemma LSTMLosses_forward_ignores_padded_hidden_witness :
  pad_packed_sequence one_packed true = Ok (one_step, [1]) /\
  lstm_shapes one_step one_hidden [1] = true /\
  lstm_shapes one_step long_hidden [1] = true /\
  Losses.LSTMLosses.forward losses one_packed one_hidden =
  Losses.LSTMLosses.forward losses one_packed long_hidden.
Proof.
  split; [ reflexivity | ]. split; [ reflexivity | ].
  split; [ reflexivity | ].
  exact (LSTMLosses_forward_ignores_padded_hidden
           losses one_packed one_step one_hidden long_hidden [1]
           eq_refl eq_refl eq_refl hidden_agree).
Defined.

(** A batch of one sequence padded to two positions, scored against
    hidden states and features of width one. *)
Definition padded_step : tensor3 R := Witnesses.padded_step.


(** The zero descriptors of [RealFacts], at distance zero from
    themselves. *)
Definition zero_distances : tensor1 R := Witnesses.zero_distances.
Definition margin_two : Losses.ContrastiveLoss.t R :=
  {| Losses.ContrastiveLoss.margin := 2%R |}.

Lemma zero_descs_distances :
  pairwise_distance zero_descs zero_descs = Ok zero_distances.
Proof. reflexivity. Defined.

Lemma ContrastiveLoss_forward_broadcasts_single_label_witness :
  pairwise_distance zero_descs zero_descs = Ok zero_distances /\
  size1 (zeros1 1 : tensor1 R) = 1 /\
  Losses.ContrastiveLoss.forward margin_two zero_descs zero_descs
                                 (zeros1 1) =
  Ok (Formulas.contrastive 2%R 2 (fun _ => 0%R) (at1 zero_distances)).
Proof.
  split; [ reflexivity | ]. split; [ reflexivity | ].
  exact (ContrastiveLoss_forward_broadcasts_single_label
           margin_two zero_descs zero_descs (zeros1 1) zero_distances
           zero_descs_distances eq_refl).
Defined.

Lemma ContrastiveLoss_forward_label_mismatch_witness :
  pairwise_distance zero_descs zero_descs = Ok zero_distances /\
  size1 (zeros1 3 : tensor1 R) <> size1 zero_distances /\
  size1 (zeros1 3 : tensor1 R) <> 1 /\ size1 zero_distances <> 1 /\
  Losses.ContrastiveLoss.forward margin_two zero_descs zero_descs
                                 (zeros1 3) = Err size_mismatch.
Proof.
  split; [ reflexivity | ].
  split; [ simpl; lia | ]. split; [ simpl; lia | ].
  split; [ simpl; lia | ].
  apply (ContrastiveLoss_forward_label_mismatch
           margin_two zero_descs zero_descs (zeros1 3) zero_distances
           zero_descs_distances); simpl; lia.
Defined.

Lemma zero_labels_in_unit (i : nat) :
  i < size1 zero_distances -> (0 <= at1 zero_labels i <= 1)%R.
Proof. intros _. simpl. lra. Defined.

Lemma zero_labels_binary (i : nat) :
  i < size1 zero_distances ->
  at1 zero_labels i = 0%R \/ at1 zero_labels i = 1%R.
Proof. intros _. left. reflexivity. Defined.

Lemma ContrastiveLoss_forward_nonnegative_witness :
  pairwise_distance zero_descs zero_descs = Ok zero_distances /\
  size1 zero_labels = size1 zero_distances /\ 0 < size1 zero_distances /\
  exists loss,
    Losses.ContrastiveLoss.forward margin_two zero_descs zero_descs
                                   zero_labels = Ok loss /\
    (0 <= loss)%R.
Proof.
  split; [ reflexivity | ]. split; [ reflexivity | ].
  split; [ simpl; lia | ].
  exact (@RealContrastive.ContrastiveLoss_forward_nonnegative R_Distance
           margin_two zero_descs zero_descs zero_labels zero_distances
           zero_descs_distances eq_refl (Nat.lt_0_succ 1)
           zero_labels_in_unit).
Defined.

Lemma ContrastiveLoss_forward_zero_iff_witness :
  pairwise_distance zero_descs zero_descs = Ok zero_distances /\
  size1 zero_labels = size1 zero_distances /\ 0 < size1 zero_distances /\
  exists loss,
    Losses.ContrastiveLoss.forward margin_two zero_descs zero_descs
                                   zero_labels = Ok loss /\
    (loss = 0%R <->
     forall i, i < size1 zero_distances ->
       (at1 zero_labels i = 0%R /\ at1 zero_distances i = 0%R) \/
       (at1 zero_labels i = 1%R /\ (2 <= at1 zero_distances i)%R)).
Proof.
  split; [ reflexivity | ]. split; [ reflexivity | ].
  split; [ simpl; lia | ].
  exact (@RealContrastive.ContrastiveLoss_forward_zero_iff R_Distance
           margin_two zero_descs zero_descs zero_labels zero_distances
           zero_descs_distances eq_refl (Nat.lt_0_succ 1)
           zero_labels_binary).
Defined.

(** One image whose pooled features are 2048 wide, for a model with a
    single feature. *)
Definition one_image : tensor2 R := zeros2 1 2048.

Lemma forward_needs_2048_pooled_features_witness :
  inception_trunk one_image = Ok (one_image, zeros2 1 1000) /\
  exists feats,
    Model.Inception_forward
      (Model.cnn (fst (Model.init 1 1 true 0%R 0))) one_image =
      Ok (feats, zeros2 1 1000) /\
    rows2 feats = 1 /\ cols2 feats = 1.
Proof.
  split; [ reflexivity | ].
  exact (forward_needs_2048_pooled_features
           1 1 true 0%R 0 one_image one_image (zeros2 1 1000) eq_refl).
Defined.

End Instances.
